(** * Message search engine: cache loader and substring search

    A shallow embedding of [src/main.py]: the paginated loader
    [load_all_messages], the linear scan [search_messages], and the two
    endpoints [search] and [refresh_cache].

    Python values are modelled as follows.
    - [str] is [string]; the characters are the code points below 256, on
      which [str.lower] and [str.strip] are given exactly.
    - [int] is [Z]; [asyncio.sleep] durations are whole seconds in [Z].
    - A message (a JSON object) is a [gmap string jvalue].
    - The upstream API is a script: the list of answers it will give to
      the successive [client.get] calls.
    - [print] writes to stdout only and is left out, as is the measured
      [response_time_ms] of the search endpoint. *)

From Stdlib Require Import ZArith String Ascii List Lia Bool.
From stdpp Require Import base list gmap strings.

Local Open Scope string_scope.
Local Open Scope list_scope.
Local Open Scope Z_scope.

(** ** Python strings *)

Module PyStr.

(** [str.lower] on one character: A-Z and the Latin-1 capitals
    (U+00C0..U+00DE without the multiplication sign U+00D7) move up by 32. *)
Definition lower_char (c : ascii) : ascii :=
  let n := N_of_ascii c in
  if ((65 <=? n) && (n <=? 90))%N
     || ((192 <=? n) && (n <=? 222) && negb (n =? 215))%N
  then ascii_of_N (n + 32)
  else c.

Fixpoint lower (s : string) : string :=
  match s with
  | EmptyString => EmptyString
  | String c t => String (lower_char c) (lower t)
  end.

(** [str.isspace] on one character: TAB..CR, FS..US, space, NEL, NBSP. *)
Definition is_space (c : ascii) : bool :=
  let n := N_of_ascii c in
  (((9 <=? n) && (n <=? 13)) || ((28 <=? n) && (n <=? 32))
   || (n =? 133) || (n =? 160))%N.

Fixpoint lstrip (s : string) : string :=
  match s with
  | EmptyString => EmptyString
  | String c t => if is_space c then lstrip t else s
  end.

(** [rstrip] keeps a character when something non-blank follows it. *)
Fixpoint rstrip (s : string) : string :=
  match s with
  | EmptyString => EmptyString
  | String c t =>
      match rstrip t with
      | EmptyString => if is_space c then EmptyString else String c EmptyString
      | t' => String c t'
      end
  end.

Definition strip (s : string) : string := rstrip (lstrip s).

(** [sub in s]: [sub] occurs in [s] at some offset. *)
Fixpoint contains (sub s : string) : bool :=
  String.prefix sub s
  || match s with
     | EmptyString => false
     | String _ t => contains sub t
     end.

(** The declarative reading of "is a substring of". *)
Definition is_substring (sub s : string) : Prop :=
  exists pre post, s = String.append pre (String.append sub post).

End PyStr.

(** ** JSON values and messages *)

Inductive jvalue : Type :=
| JStr (s : string)
| JNum (n : Z)
| JBool (b : bool)
| JNull.

Abbreviation record := (gmap string jvalue).

(** ** Failures *)

Inductive py_error : Type :=
| AttributeError            (* [.lower()] on a value that is no [str] *)
| HTTPException (status : Z) (* raised by an endpoint *)
| RequestValidationError     (* a declared [Query] bound is violated *).

Inductive res (A : Type) : Type :=
| Ok (a : A)
| Err (e : py_error).
Arguments Ok {A} a.
Arguments Err {A} e.

Definition bind {A B} (m : res A) (k : A -> res B) : res B :=
  match m with
  | Ok a => k a
  | Err e => Err e
  end.

Notation "'try!' x ':=' m 'in' k" := (bind m (fun x => k))
  (at level 10, x name, m at level 100, k at level 200).

(** ** The search scan *)

Module Search.
Import PyStr.

(** [msg.get(field, "").lower()] *)
Definition get_lower (msg : record) (field : string) : res string :=
  match msg !! field with
  | None => Ok (lower "")
  | Some (JStr s) => Ok (lower s)
  | Some _ => Err AttributeError
  end.

(** [query_lower in msg.get(field, "").lower()] *)
Definition field_matches (query_lower : string) (msg : record) (field : string)
  : res bool :=
  try! s := get_lower msg field in Ok (contains query_lower s).

(** The condition of the comprehension; [or] evaluates its right operand
    only when the left one is false. *)
Definition msg_matches (query_lower : string) (msg : record) : res bool :=
  try! b1 := field_matches query_lower msg "message" in
  if b1 then Ok true else
  try! b2 := field_matches query_lower msg "user_name" in
  if b2 then Ok true else
  field_matches query_lower msg "user_id".

(** [[msg for msg in message_cache if ...]] *)
Fixpoint matched (query_lower : string) (message_cache : list record)
  : res (list record) :=
  match message_cache with
  | [] => Ok []
  | msg :: rest =>
      try! b := msg_matches query_lower msg in
      try! tl := matched query_lower rest in
      Ok (if b then msg :: tl else tl)
  end.

(** A slice bound brought into [0, n]: negative bounds count from the end. *)
Definition slice_bound (n i : Z) : Z :=
  if i <? 0 then Z.max (i + n) 0 else Z.min i n.

(** [l[lo:hi]] *)
Definition py_slice {A} (l : list A) (lo hi : Z) : list A :=
  let n := Z.of_nat (length l) in
  let lo' := slice_bound n lo in
  let hi' := slice_bound n hi in
  take (Z.to_nat (hi' - lo')) (drop (Z.to_nat lo') l).

Record search_result : Type := SearchResult {
  total : Z;
  items : list record;
  skip : Z;
  limit : Z;
  cache_size : Z
}.

Definition search_messages (message_cache : list record)
           (query : string) (skip limit : Z) : res search_result :=
  let query_lower := lower query in
  try! matched := matched query_lower message_cache in
  let total := Z.of_nat (length matched) in
  let paginated := py_slice matched skip (skip + limit) in
  Ok {| total := total;
        items := paginated;
        skip := skip;
        limit := limit;
        cache_size := Z.of_nat (length message_cache) |}.

(** The items of a page, the empty list when the scan raised. *)
Definition page_items (message_cache : list record)
           (query : string) (skip limit : Z) : list record :=
  match search_messages message_cache query skip limit with
  | Ok r => items r
  | Err _ => []
  end.

(** The rule of the specification: some searched field, read as the empty
    string when absent, holds the lowered query as a substring. *)
Definition field_text (msg : record) (field : string) : option string :=
  match msg !! field with
  | None => Some ""
  | Some (JStr s) => Some s
  | Some _ => None
  end.

Definition searched_fields : list string := ["message"; "user_name"; "user_id"].

Definition matches_rule (query : string) (msg : record) : Prop :=
  exists field s,
    field ∈ searched_fields /\ field_text msg field = Some s /\
    is_substring (lower query) (lower s).

(** Messages whose searched fields are strings or absent. *)
Definition textual (msg : record) : Prop :=
  forall field, field ∈ searched_fields -> is_Some (field_text msg field).

End Search.

(** ** The cache, the upstream and the event loop *)

(** The two module globals. *)
Record cache : Type := Cache {
  message_cache : list record;
  cache_loaded : bool
}.

(** What one [client.get] followed by [raise_for_status] and [json] can do. *)
Inductive response : Type :=
| RespPage (items : option (list record)) (total : option Z)
    (* a JSON object; either key may be absent *)
| RespStatus (status_code : Z)
    (* [raise_for_status] raises [HTTPStatusError] *)
| RespException
    (* any other exception raised inside the [try] *).

(** The points where the coroutine is suspended. Every endpoint is an
    [async def] on the same event loop, so other handlers run at these
    points and nowhere else. *)
Inductive event : Type :=
| EvGet (skip limit : Z)
| EvSleep (seconds : Z).

(** The trace pairs each suspension with the globals a handler scheduled at
    that point reads. *)
Record world : Type := World {
  globals : cache;
  upstream : list response;
  trace : list (event * cache)
}.

Definition set_cache_loaded (b : bool) (w : world) : world :=
  {| globals := {| message_cache := message_cache (globals w); cache_loaded := b |};
     upstream := upstream w;
     trace := trace w |}.

Definition set_message_cache (l : list record) (w : world) : world :=
  {| globals := {| message_cache := l; cache_loaded := cache_loaded (globals w) |};
     upstream := upstream w;
     trace := trace w |}.

Definition suspend (ev : event) (w : world) : world :=
  {| globals := globals w;
     upstream := upstream w;
     trace := trace w ++ [(ev, globals w)] |}.

(** A run ends, or asks the upstream for an answer the script does not
    hold, or uses up the unrolling bound of a loop. *)
Inductive outcome (A : Type) : Type :=
| Finished (a : A)
| Unscripted (w : world)
| OutOfGas.
Arguments Finished {A} a.
Arguments Unscripted {A} w.
Arguments OutOfGas {A}.

(** ** The loader *)

Module Loader.

Definition limit : Z := 100.
Definition max_retries : Z := 5.
Definition retry_statuses : list Z := [400; 402; 403; 429; 404; 401; 405].

(** The locals of [load_all_messages] that live across pages. *)
Record session : Type := Session {
  skip : Z;
  all_messages : list record
}.

(** [await client.get(url, params={"skip": skip, "limit": limit})] *)
Definition client_get (skip limit : Z) (w : world) : option (response * world) :=
  let w' := suspend (EvGet skip limit) w in
  match upstream w' with
  | [] => None
  | r :: rest =>
      Some (r, {| globals := globals w'; upstream := rest; trace := trace w' |})
  end.

(** [await asyncio.sleep(seconds)] *)
Definition sleep (seconds : Z) (w : world) : world := suspend (EvSleep seconds) w.

(** Lines 50-51 and 66-67: the flag, then the list. *)
Definition publish (all_messages : list record) (w : world) : world :=
  set_message_cache all_messages (set_cache_loaded true w).

(** Lines 90-91: the list, then the flag. *)
Definition publish_partial (all_messages : list record) (w : world) : world :=
  set_cache_loaded true (set_message_cache all_messages w).

(** How the inner [while] is left: by [return] out of the function, or by
    its condition or a [break], with the value of [success]. *)
Inductive page_exit : Type :=
| PageReturn (w : world)
| PageExit (success : bool) (s : session) (w : world).

(** [while retry_count < max_retries and not success: ...] *)
Fixpoint retry_loop (gas : nat) (retry_count : Z) (success : bool)
         (s : session) (w : world) : outcome page_exit :=
  match gas with
  | O => OutOfGas
  | S gas' =>
      if (retry_count <? max_retries) && negb success then
        match client_get (skip s) limit w with
        | None => Unscripted (suspend (EvGet (skip s) limit) w)
        | Some (RespPage items total, w) =>
            let items := default [] items in
            match items with
            | [] => Finished (PageReturn (publish (all_messages s) w))
            | _ :: _ =>
                let all_messages := all_messages s ++ items in
                let total := default 0 total in
                let s := {| skip := skip s + limit; all_messages := all_messages |} in
                let success := true in
                let w := sleep 1 w in
                if Z.of_nat (length all_messages) >=? total
                then Finished (PageReturn (publish all_messages w))
                else retry_loop gas' retry_count success s w
            end
        | Some (RespStatus status_code, w) =>
            if existsb (Z.eqb status_code) retry_statuses then
              let retry_count := retry_count + 1 in
              let wait_time := 5 * 2 ^ retry_count in
              retry_loop gas' retry_count success s (sleep wait_time w)
            else Finished (PageExit success s w)
        | Some (RespException, w) =>
            let retry_count := retry_count + 1 in
            let w := if retry_count <? max_retries then sleep 5 w else w in
            retry_loop gas' retry_count success s w
        end
      else Finished (PageExit success s w)
  end.

(** One pass of the inner loop needs at most [max_retries] turns and one
    more to see its condition fail. *)
Definition page_gas : nat := S (Z.to_nat max_retries).

(** [while True: ...] and the statements after it. *)
Fixpoint load_loop (gas : nat) (s : session) (w : world) : outcome world :=
  match gas with
  | O => OutOfGas
  | S gas' =>
      match retry_loop page_gas 0 false s w with
      | Finished (PageReturn w) => Finished w
      | Finished (PageExit success s w) =>
          if negb success
          then Finished (publish_partial (all_messages s) w)
          else load_loop gas' s w
      | Unscripted w => Unscripted w
      | OutOfGas => OutOfGas
      end
  end.

(** Every page that lets the outer loop go on has taken an answer, so the
    length of the script bounds the number of pages. *)
Definition load_all_messages (w : world) : outcome world :=
  if cache_loaded (globals w) then Finished w
  else load_loop (S (length (upstream w))) {| skip := 0; all_messages := [] |} w.

End Loader.

(** ** The endpoints *)

Module Endpoints.
Import PyStr Search.

(** [GET /search]; the bounds declared on [skip] and [limit] are checked
    before the body runs. *)
Definition search (c : cache) (q : string) (skip limit : Z) : res search_result :=
  if negb (0 <=? skip) then Err RequestValidationError
  else if negb ((1 <=? limit) && (limit <=? 1000)) then Err RequestValidationError
  else if negb (cache_loaded c) then Err (HTTPException 503)
  else if (String.eqb q "") || (String.eqb (strip q) "") then Err (HTTPException 400)
  else search_messages (message_cache c) (strip q) skip limit.

(** [POST /refresh-cache]; the answer carries [len(message_cache)]. *)
Definition refresh_cache (w : world) : outcome (world * Z) :=
  let w := set_cache_loaded false w in
  match Loader.load_all_messages w with
  | Finished w => Finished (w, Z.of_nat (length (message_cache (globals w))))
  | Unscripted w => Unscripted w
  | OutOfGas => OutOfGas
  end.

End Endpoints.

(** ** What a run does to the world *)

(** The records a run appends for the answers it has taken. *)
Definition page_of (r : response) : list record :=
  match r with
  | RespPage items _ => default [] items
  | _ => []
  end.

Definition fetched (consumed : list response) : list record :=
  concat (map page_of consumed).

(** From [w] to [w'] the answers [consumed] were taken, and every suspension
    in between showed the globals of [w]. *)
Definition steps (w w' : world) (consumed : list response) : Prop :=
  upstream w = consumed ++ upstream w' /\
  exists new, trace w' = trace w ++ new /\ Forall (fun o => o.2 = globals w) new.

Section RunInvariants.
Import Loader.

(** What one pass of the inner loop, entered with [success] at [s] and
    [w], leaves behind. *)
Definition page_inv (success : bool) (s : session) (w : world)
           (o : outcome page_exit) : Prop :=
  match o with
  | Finished (PageReturn w') =>
      exists c, steps w w' c /\
        globals w' = {| message_cache := all_messages s ++ fetched c;
                        cache_loaded := true |}
  | Finished (PageExit success' s' w') =>
      exists c, steps w w' c /\ globals w' = globals w /\
        all_messages s' = all_messages s ++ fetched c /\
        (success = false -> success' = true -> c <> [])
  | Unscripted w' =>
      exists c, steps w w' c /\ globals w' = globals w /\ upstream w' = []
  | OutOfGas => True
  end.

(** What a whole run leaves behind. *)
Definition run_inv (s : session) (w : world) (o : outcome world) : Prop :=
  match o with
  | Finished w' =>
      exists c, steps w w' c /\
        globals w' = {| message_cache := all_messages s ++ fetched c;
                        cache_loaded := true |}
  | Unscripted w' =>
      exists c, steps w w' c /\ globals w' = globals w /\ upstream w' = []
  | OutOfGas => True
  end.

End RunInvariants.

(** ** Scripts and traces of a run *)

(** The requests a trace holds, as pairs of [skip] and [limit]. *)
Fixpoint gets (tr : list (event * cache)) : list (Z * Z) :=
  match tr with
  | [] => []
  | (EvGet skip limit, _) :: tr => (skip, limit) :: gets tr
  | (EvSleep _, _) :: tr => gets tr
  end.

(** The suspensions of a run so far. *)
Definition run_events (o : outcome world) : list event :=
  match o with
  | Finished w | Unscripted w => map fst (trace w)
  | OutOfGas => []
  end.

(** A well-formed page: both keys present. *)
Definition ok_page (p : list record * Z) : response :=
  RespPage (Some p.1) (Some p.2).

(** Pages after which the loader goes on: each has items, and the count
    accumulated with it stays below its [total]. *)
Fixpoint continuing (acc : list record) (pages : list (list record * Z)) : bool :=
  match pages with
  | [] => true
  | (items, total) :: pages =>
      negb (bool_decide (items = [])) &&
      (Z.of_nat (length (acc ++ items)) <? total) &&
      continuing (acc ++ items) pages
  end.

(** The suspensions of fetching such pages from cursor [skip] on. *)
Fixpoint pages_trace (g : cache) (skip : Z) (pages : list (list record * Z))
  : list (event * cache) :=
  match pages with
  | [] => []
  | _ :: pages =>
      (EvGet skip Loader.limit, g) :: (EvSleep 1, g)
      :: pages_trace g (skip + Loader.limit) pages
  end.

(** The failures that use up one attempt of the retry budget. *)
Definition is_retryable (r : response) : bool :=
  match r with
  | RespPage _ _ => false
  | RespStatus status_code => existsb (Z.eqb status_code) Loader.retry_statuses
  | RespException => true
  end.

(** ** Sample data *)

Module Sample.

Definition msg_hello : record :=
  {[ "message" := JStr "Hello World"; "user_name" := JStr "Alice";
     "user_id" := JStr "u1" ]}.

Definition msg_lunch : record :=
  {[ "message" := JStr "lunch at noon"; "user_name" := JStr "Bob";
     "user_id" := JStr "u2" ]}.

(** No [message] key at all. *)
Definition msg_anon : record :=
  {[ "user_name" := JStr "WOLFGANG"; "user_id" := JStr "u3" ]}.

Definition snapshot : list record := [msg_hello; msg_lunch; msg_anon].

Definition loaded : cache := {| message_cache := snapshot; cache_loaded := true |}.
Definition unloaded : cache := {| message_cache := []; cache_loaded := false |}.

(** A world with the sample snapshot loaded and a script of two pages. *)
Definition refresh_script : list response :=
  [RespPage (Some [msg_lunch]) (Some 2); RespPage (Some [msg_anon]) (Some 2)].

Definition served : world :=
  {| globals := loaded; upstream := refresh_script; trace := [] |}.

Definition unloaded_of (c : cache) : cache :=
  {| message_cache := message_cache c; cache_loaded := false |}.

Definition page_wo : Search.search_result :=
  {| Search.total := 2; Search.items := [msg_hello; msg_anon];
     Search.skip := 0; Search.limit := 10; Search.cache_size := 3 |}.

End Sample.


(** ** The health endpoint and the start of the process *)

Module Status.

(** The answer of [GET /health]. *)
Record health_report : Type := HealthReport {
  status : string;
  reported_loaded : bool;    (* key [cache_loaded] *)
  cached_messages : Z;
  total_messages : Z
}.

(** [GET /health] *)
Definition health (c : cache) : health_report :=
  {| status := "healthy";
     reported_loaded := cache_loaded c;
     cached_messages := Z.of_nat (length (message_cache c));
     total_messages := 3349 |}.

(** The globals as the module binds them when it is imported. *)
Definition initial : cache := {| message_cache := []; cache_loaded := false |}.

(** The startup hook: [await load_all_messages()]. *)
Definition startup_event (w : world) : outcome world := Loader.load_all_messages w.

End Status.

(** ** The shape of the requests of a run *)

(** For each page in turn, [k] requests at its cursor; the cursor moves on
    by the page size. *)
Fixpoint request_blocks (cursor : Z) (ks : list nat) : list (Z * Z) :=
  match ks with
  | [] => []
  | k :: ks =>
      replicate k (cursor, Loader.limit) ++
      request_blocks (cursor + Loader.limit) ks
  end.

(** The world in which an outcome leaves a run, if it says. *)
Definition final_world (o : outcome world) : option world :=
  match o with
  | Finished w | Unscripted w => Some w
  | OutOfGas => None
  end.

(** A string that does not begin with white space. *)
Definition starts_clean (s : string) : Prop :=
  match s with
  | EmptyString => True
  | String c _ => PyStr.is_space c = false
  end.

Section PassRequests.
Import Loader.

(** What one pass of the inner loop, entered with [retry_count] and
    [success] at [s] and [w], asks of the upstream: [k] requests, all at
    the cursor of [s], within what is left of the budget; and where it
    leaves the cursor. *)
Definition pass_requests (retry_count : Z) (success : bool) (s : session)
           (w : world) (o : outcome page_exit) : Prop :=
  let asked (k : nat) (w' : world) :=
    gets (trace w') = gets (trace w) ++ replicate k (skip s, limit) /\
    Z.of_nat k <= Z.max 0 (max_retries - retry_count) /\
    (success = true -> k = 0%nat) /\
    (success = false -> retry_count < max_retries -> (1 <= k)%nat) in
  match o with
  | Finished (PageReturn w') | Unscripted w' => exists k, asked k w'
  | Finished (PageExit success' s' w') =>
      exists k, asked k w' /\
        (success = true -> success' = true) /\
        skip s' = if success' && negb success then skip s + limit else skip s
  | OutOfGas => True
  end.

End PassRequests.

(** ** Shapes of traces and scripts *)

(** The suspensions of [k] failures with a retryable status in a row, met
    at [retry_count]: a request at the cursor, then the wait computed from
    the count raised by that failure. *)
Definition backoff_trace (g : cache) (cursor retry_count : Z) (k : nat)
  : list (event * cache) :=
  concat (map (fun i => [(EvGet cursor Loader.limit, g);
                         (EvSleep (5 * 2 ^ (retry_count + Z.of_nat i)), g)])
              (seq 1 k)).

(** A run from [s] and [w] to [w'] begins with a request at the cursor of
    [s], seen with the globals of [w], and has taken an answer. *)
Definition begins_with_request (s : Loader.session) (w w' : world) : Prop :=
  (exists new,
     trace w' = trace w ++ (EvGet (Loader.skip s) Loader.limit, globals w) :: new) /\
  (length (upstream w') < length (upstream w))%nat.

(** Pages that each come after some failures: the answers of the upstream,
    in order. *)
Definition blocks_script (blocks : list (list response * (list record * Z)))
  : list response :=
  concat (map (fun b => b.1 ++ [ok_page b.2]) blocks).
(** * Properties

    ** Strings *)

Section StringFacts.
Import PyStr.

Lemma append_cons (c : ascii) (s t : string) :
  String.append (String c s) t = String c (String.append s t).
Proof. reflexivity. Qed.

Lemma append_empty (t : string) : String.append "" t = t.
Proof. reflexivity. Qed.

Lemma prefix_app (sub s : string) :
  String.prefix sub s = true <-> exists post, s = String.append sub post.
Proof.
  revert s. induction sub as [|c sub IH]; intros s.
  - split; [intros _; by exists s | by destruct s].
  - destruct s as [|d s]; simpl.
    + split; [done | intros [post H]; discriminate].
    + destruct (Ascii.ascii_dec c d) as [->|Hne].
      * rewrite IH. split; intros [post H]; exists post;
          rewrite append_cons in *; congruence.
      * split; [done | intros [post H]; rewrite append_cons in H; congruence].
Qed.

Lemma contains_substring (sub s : string) :
  contains sub s = true <-> is_substring sub s.
Proof.
  unfold is_substring. induction s as [|d s IH].
  - cbn [contains]. rewrite orb_false_r, prefix_app. split.
    + intros [post H]. by exists "", post.
    + intros [[|c pre] [post H]]; [by exists post | discriminate].
  - cbn [contains]. rewrite orb_true_iff, IH, prefix_app. split.
    + intros [[post H] | (pre & post & H)].
      * by exists "", post.
      * exists (String d pre), post. by rewrite append_cons, H.
    + intros [[|c pre] [post H]].
      * left. by exists post.
      * right. exists pre, post. rewrite append_cons in H. congruence.
Qed.

Lemma substring_of_empty (sub : string) : is_substring sub "" -> sub = "".
Proof.
  intros [[|c pre] [post H]]; [|discriminate].
  destruct sub; [done | discriminate].
Qed.

Lemma lower_empty (s : string) : lower s = "" <-> s = "".
Proof. destruct s; simpl; split; congruence. Qed.

End StringFacts.

(** ** The scan *)

Section SearchFacts.
Import PyStr Search.

Lemma field_matches_text (ql : string) (msg : record) (field : string) :
  field_matches ql msg field = Ok true ->
  exists s, field_text msg field = Some s /\ is_substring ql (lower s).
Proof.
  unfold field_matches, get_lower, field_text.
  destruct (msg !! field) as [[s| | |]|]; simpl; try discriminate.
  - intros [= H]. exists s. by rewrite <- contains_substring.
  - intros [= H]. exists "". by rewrite <- contains_substring.
Qed.

Lemma field_matches_absent (ql : string) (msg : record) (field : string) :
  ql <> "" -> msg !! field = None -> field_matches ql msg field = Ok false.
Proof.
  intros Hq Hnone. unfold field_matches, get_lower. rewrite Hnone.
  change (lower "") with "". unfold bind.
  f_equal. apply not_true_is_false. intros H.
  apply contains_substring, substring_of_empty in H. done.
Qed.

Lemma msg_matches_rule (query : string) (msg : record) :
  msg_matches (lower query) msg = Ok true -> matches_rule query msg.
Proof.
  unfold msg_matches, matches_rule, searched_fields.
  destruct (field_matches _ msg "message") as [[|]|] eqn:H1; simpl; [| |done].
  { intros _. apply field_matches_text in H1 as (s & ? & ?).
    exists "message", s. set_solver. }
  destruct (field_matches _ msg "user_name") as [[|]|] eqn:H2; simpl; [| |done].
  { intros _. apply field_matches_text in H2 as (s & ? & ?).
    exists "user_name", s. set_solver. }
  intros H3. apply field_matches_text in H3 as (s & ? & ?).
  exists "user_id", s. set_solver.
Qed.

Lemma field_matches_textual (ql : string) (msg : record) (field : string) :
  textual msg -> field ∈ searched_fields ->
  exists b, field_matches ql msg field = Ok b.
Proof.
  intros Ht Hin. destruct (Ht field Hin) as [s Hs].
  unfold field_matches, get_lower. unfold field_text in Hs.
  destruct (msg !! field) as [[| | |]|]; try discriminate; unfold bind; eauto.
Qed.

Lemma msg_matches_textual (ql : string) (msg : record) :
  textual msg -> exists b, msg_matches ql msg = Ok b.
Proof.
  intros Ht. unfold msg_matches.
  destruct (field_matches_textual ql msg "message" Ht) as [b1 ->];
    [set_solver|]. unfold bind at 1. destruct b1; [eauto|].
  destruct (field_matches_textual ql msg "user_name" Ht) as [b2 ->];
    [set_solver|]. unfold bind at 1. destruct b2; [eauto|].
  apply field_matches_textual; [done | set_solver].
Qed.

Lemma matched_sublist (ql : string) (message_cache m : list record) :
  matched ql message_cache = Ok m -> sublist m message_cache.
Proof.
  revert m. induction message_cache as [|msg rest IH]; intros m; simpl.
  - intros [= <-]. constructor.
  - destruct (msg_matches ql msg) as [b|]; simpl; [|done].
    destruct (matched ql rest) as [tl|]; simpl; [|done].
    intros [= <-]. destruct b; constructor; by apply IH.
Qed.

Lemma matched_elem (ql : string) (message_cache m : list record) :
  matched ql message_cache = Ok m ->
  forall msg, msg ∈ m <-> msg ∈ message_cache /\ msg_matches ql msg = Ok true.
Proof.
  revert m. induction message_cache as [|x rest IH]; intros m; simpl.
  - intros [= <-] msg. rewrite elem_of_nil. tauto.
  - destruct (msg_matches ql x) as [b|] eqn:Hx; simpl; [|done].
    destruct (matched ql rest) as [tl|]; simpl; [|done].
    intros [= <-] msg. specialize (IH tl eq_refl msg).
    destruct b; rewrite ?elem_of_cons, IH; split.
    + intros [->|[? ?]]; auto.
    + intros [[->|?] ?]; auto.
    + intros [? ?]; auto.
    + intros [[->|?] ?]; [congruence | auto].
Qed.

Lemma matched_total (ql : string) (message_cache : list record) :
  Forall textual message_cache -> exists m, matched ql message_cache = Ok m.
Proof.
  induction 1 as [|msg rest Hmsg _ [tl IH]]; simpl; [eauto|].
  destruct (msg_matches_textual ql msg Hmsg) as [b ->]. rewrite IH. simpl. eauto.
Qed.

(** The scan returns a page on every snapshot of textual messages. *)
Lemma search_messages_total (message_cache : list record) (query : string)
      (skip limit : Z) :
  Forall textual message_cache ->
  exists r, search_messages message_cache query skip limit = Ok r.
Proof.
  intros Ht. destruct (matched_total (lower query) message_cache Ht) as [m Hm].
  unfold search_messages. rewrite Hm. unfold bind. eauto.
Qed.

(** For bounds that are not negative a slice is a [drop] and a [take]. *)
Lemma py_slice_nonneg {A} (l : list A) (lo n : Z) :
  0 <= lo -> 0 <= n ->
  py_slice l lo (lo + n) = take (Z.to_nat n) (drop (Z.to_nat lo) l).
Proof.
  intros Hlo Hn. unfold py_slice, slice_bound.
  destruct (Z.ltb_spec lo 0); [lia|]. destruct (Z.ltb_spec (lo + n) 0); [lia|].
  destruct (Z_le_gt_dec (Z.of_nat (length l)) lo) as [Hge|Hlt].
  - rewrite !(drop_ge l) by lia. by rewrite !take_nil.
  - replace (Z.to_nat (Z.min lo (Z.of_nat (length l)))) with (Z.to_nat lo) by lia.
    destruct (Z_le_gt_dec (lo + n) (Z.of_nat (length l))).
    + f_equal. lia.
    + rewrite !take_ge; [done | |]; rewrite length_drop; lia.
Qed.

Lemma py_slice_subseteq {A} (l : list A) (lo hi : Z) : py_slice l lo hi ⊆ l.
Proof.
  unfold py_slice. etrans; [apply subseteq_take | apply subseteq_drop].
Qed.

(** The pages of size [n] laid end to end are a prefix of the list. *)
Lemma pages_concat {A} (l : list A) (n k : nat) :
  concat (map (fun i => take n (drop (i * n) l)) (seq 0 k)) = take (k * n) l.
Proof.
  induction k as [|k IH]; [done|].
  rewrite seq_S, map_app, concat_app, IH. simpl. rewrite app_nil_r.
  replace (n + k * n)%nat with (k * n + n)%nat by lia.
  apply take_take_drop.
Qed.

End SearchFacts.

(** ** Search: the claims *)

Section SearchClaims.
Import PyStr Search Endpoints.

(** Every record of a page has passed the condition of the scan. *)
Lemma search_messages_items (message_cache : list record) (query : string)
      (skip limit : Z) (r : search_result) :
  search_messages message_cache query skip limit = Ok r ->
  forall msg, msg ∈ items r -> matches_rule query msg.
Proof.
  unfold search_messages. intros Hs.
  destruct (matched (lower query) message_cache) as [m|] eqn:Hm; [|done].
  unfold bind in Hs. injection Hs as <-. cbn [items].
  intros msg Hin. apply py_slice_subseteq in Hin.
  apply (matched_elem _ _ _ Hm) in Hin as [_ Hmatch].
  by apply msg_matches_rule.
Qed.

(** C1. For a non-empty query, every record of the page returned by
    [search_messages] holds the lowered query as a substring of the lowered
    [message], [user_name] or [user_id], an absent field being read as the
    empty string; and an absent field never matches such a query. *)
Theorem search_page_matches_rule
        (message_cache : list record) (query : string) (skip limit : Z)
        (r : search_result) :
  query <> "" ->
  search_messages message_cache query skip limit = Ok r ->
  (forall msg, msg ∈ items r -> matches_rule query msg) /\
  (forall (msg : record) field,
      msg !! field = None -> field_matches (lower query) msg field = Ok false).
Proof.
  intros Hq Hs. split.
  - by eapply search_messages_items.
  - intros msg field Hnone. apply field_matches_absent; [|done].
    by rewrite lower_empty.
Qed.

Lemma search_page_matches_rule_witness :
  (forall msg, msg ∈ items Sample.page_wo -> matches_rule "WO" msg) /\
  (forall (msg : record) field,
      msg !! field = None -> field_matches (lower "WO") msg field = Ok false).
Proof.
  apply (search_page_matches_rule Sample.snapshot "WO" 0 10 Sample.page_wo).
  - discriminate.
  - vm_compute. reflexivity.
Defined.

(** The same through the endpoint, where the query is the trimmed [q]. *)
Corollary search_endpoint_matches_rule
          (c : cache) (q : string) (skip limit : Z) (r : search_result) :
  search c q skip limit = Ok r ->
  strip q <> "" /\ forall msg, msg ∈ items r -> matches_rule (strip q) msg.
Proof.
  unfold search.
  destruct (negb (0 <=? skip)); [done|].
  destruct (negb ((1 <=? limit) && (limit <=? 1000))); [done|].
  destruct (negb (cache_loaded c)); [done|].
  destruct (String.eqb q "" || String.eqb (strip q) "") eqn:Hblank; [done|].
  intros Hs. apply orb_false_elim in Hblank as [_ Hne].
  apply String.eqb_neq in Hne. split; [done|].
  by eapply search_messages_items.
Qed.

(** C2. With a page size [L >= 1], the match list is a sublist of the
    snapshot holding exactly its matching records; the page at [skip >= 0]
    is [L] elements of the match list from offset [skip], reported with the
    length of the whole match list as [total]; and the pages at
    [0, L, 2L, ...] laid end to end give the match list back. *)
Theorem pagination_law
        (message_cache : list record) (query : string) (m : list record) (L : Z) :
  1 <= L ->
  matched (lower query) message_cache = Ok m ->
  sublist m message_cache /\
  (forall msg, msg ∈ m <->
               msg ∈ message_cache /\ msg_matches (lower query) msg = Ok true) /\
  (forall skip, 0 <= skip ->
     search_messages message_cache query skip L =
     Ok {| total := Z.of_nat (length m);
           items := take (Z.to_nat L) (drop (Z.to_nat skip) m);
           skip := skip;
           limit := L;
           cache_size := Z.of_nat (length message_cache) |}) /\
  (forall n : nat, Z.of_nat (length m) <= Z.of_nat n * L ->
     concat (map (fun k => page_items message_cache query (Z.of_nat k * L) L)
                 (seq 0 n)) = m).
Proof.
  intros HL Hm.
  assert (forall skip, 0 <= skip ->
     search_messages message_cache query skip L =
     Ok {| total := Z.of_nat (length m);
           items := take (Z.to_nat L) (drop (Z.to_nat skip) m);
           skip := skip;
           limit := L;
           cache_size := Z.of_nat (length message_cache) |}) as Hpage.
  { intros skip Hskip. unfold search_messages. rewrite Hm. unfold bind.
    by rewrite py_slice_nonneg by lia. }
  split; [by eapply matched_sublist|]. split; [by apply matched_elem|].
  split; [done|]. intros n Hn.
  rewrite (map_ext _ (fun k => take (Z.to_nat L) (drop (k * Z.to_nat L) m))).
  - rewrite pages_concat. apply take_ge. nia.
  - intros k. unfold page_items. rewrite Hpage by nia. cbn [items].
    do 2 f_equal. nia.
Qed.

Lemma pagination_law_witness :
  sublist [Sample.msg_hello; Sample.msg_anon] Sample.snapshot /\
  (forall msg, msg ∈ [Sample.msg_hello; Sample.msg_anon] <->
               msg ∈ Sample.snapshot /\ msg_matches (lower "WO") msg = Ok true) /\
  (forall skip, 0 <= skip ->
     search_messages Sample.snapshot "WO" skip 1 =
     Ok {| total := Z.of_nat (length [Sample.msg_hello; Sample.msg_anon]);
           items := take (Z.to_nat 1)
                         (drop (Z.to_nat skip) [Sample.msg_hello; Sample.msg_anon]);
           skip := skip;
           limit := 1;
           cache_size := Z.of_nat (length Sample.snapshot) |}) /\
  (forall n : nat,
     Z.of_nat (length [Sample.msg_hello; Sample.msg_anon]) <= Z.of_nat n * 1 ->
     concat (map (fun k => page_items Sample.snapshot "WO" (Z.of_nat k * 1) 1)
                 (seq 0 n)) = [Sample.msg_hello; Sample.msg_anon]).
Proof.
  apply (pagination_law Sample.snapshot "WO" [Sample.msg_hello; Sample.msg_anon] 1).
  - lia.
  - vm_compute. reflexivity.
Defined.

End SearchClaims.

(** ** The search endpoint: the claims *)

Section EndpointClaims.
Import PyStr Search Endpoints.

Lemma query_blank_test (q : string) :
  String.eqb q "" || String.eqb (strip q) "" = true <-> strip q = "".
Proof.
  rewrite orb_true_iff, !String.eqb_eq. split; [|auto].
  intros [->|H]; [reflexivity | exact H].
Qed.

(** C6, as the specification has it, fails: a blank query against a cache
    that is not loaded gets 503, not 400. *)
Lemma blank_query_unloaded_gets_503 :
  search Sample.unloaded "" 0 100 = Err (HTTPException 503) /\
  search Sample.unloaded "" 0 100 <> Err (HTTPException 400).
Proof. split; [reflexivity | discriminate]. Qed.

(** C6, amended. With [skip] and [limit] in range, a search against a cache
    that is not loaded fails with 503 whatever the query is, and a search
    against a loaded cache fails with 400 when the query is blank. *)
Theorem search_guards (c : cache) (q : string) (skip limit : Z) :
  0 <= skip -> 1 <= limit <= 1000 ->
  (cache_loaded c = false -> search c q skip limit = Err (HTTPException 503)) /\
  (cache_loaded c = true -> strip q = "" ->
   search c q skip limit = Err (HTTPException 400)).
Proof.
  intros Hskip [Hlo Hhi]. unfold search.
  destruct (Z.leb_spec 0 skip); [|lia].
  destruct (Z.leb_spec 1 limit); [|lia].
  destruct (Z.leb_spec limit 1000); [|lia]. cbn [negb andb].
  split.
  - by intros ->.
  - intros -> Hblank. cbn [negb].
    apply query_blank_test in Hblank. by rewrite Hblank.
Qed.

Lemma search_guards_witness :
  search Sample.unloaded "x" 0 100 = Err (HTTPException 503) /\
  search Sample.loaded "  " 0 100 = Err (HTTPException 400).
Proof.
  split.
  - apply (search_guards Sample.unloaded "x" 0 100); [lia | lia | reflexivity].
  - apply (search_guards Sample.loaded "  " 0 100);
      [lia | lia | reflexivity | reflexivity].
Defined.

(** C8, as the specification has it, fails: a request with [skip = -1] is
    refused where [skip = 0] is served, likewise [limit = 0] against
    [limit = 1] and [limit = 1001] against [limit = 1000]; and the scan
    itself reads a negative [skip] from the end of the match list. *)
Lemma out_of_range_is_not_clamped :
  search Sample.loaded "wo" (-1) 100 <> search Sample.loaded "wo" 0 100 /\
  search Sample.loaded "wo" 0 0 <> search Sample.loaded "wo" 0 1 /\
  search Sample.loaded "wo" 0 1001 <> search Sample.loaded "wo" 0 1000 /\
  page_items Sample.snapshot "wo" (-1) 100 = [Sample.msg_anon] /\
  page_items Sample.snapshot "wo" 0 100 = [Sample.msg_hello; Sample.msg_anon].
Proof.
  repeat split; try (vm_compute; discriminate); vm_compute; reflexivity.
Qed.

(** C8, amended. A request whose [skip] is negative or whose [limit] is
    outside 1..1000 is refused by the validation of the parameters; values
    in range reach the scan unchanged: they are echoed in the result and
    the page is [limit] matches from offset [skip]. *)
Theorem search_bounds (c : cache) (q : string) (skip limit : Z) :
  (skip < 0 \/ limit < 1 \/ 1000 < limit ->
   search c q skip limit = Err RequestValidationError) /\
  (0 <= skip -> 1 <= limit <= 1000 ->
   forall r, search c q skip limit = Ok r ->
     Search.skip r = skip /\ Search.limit r = limit /\
     exists m, matched (lower (strip q)) (message_cache c) = Ok m /\
               total r = Z.of_nat (length m) /\
               items r = take (Z.to_nat limit) (drop (Z.to_nat skip) m)).
Proof.
  unfold search. split.
  - intros Hout.
    destruct (Z.leb_spec 0 skip); [|done].
    destruct (Z.leb_spec 1 limit); [|done].
    destruct (Z.leb_spec limit 1000); [lia | done].
  - intros Hskip [Hlo Hhi] r.
    destruct (Z.leb_spec 0 skip); [|lia].
    destruct (Z.leb_spec 1 limit); [|lia].
    destruct (Z.leb_spec limit 1000); [|lia]. cbn [negb andb].
    destruct (cache_loaded c); [|done]. cbn [negb].
    destruct (String.eqb q "" || String.eqb (strip q) ""); [done|].
    unfold search_messages.
    destruct (matched (lower (strip q)) (message_cache c)) as [m|]; [|done].
    unfold bind. intros [= <-]. cbn [Search.skip Search.limit total items].
    split; [done|]. split; [done|]. exists m.
    rewrite py_slice_nonneg by lia. done.
Qed.

Lemma search_bounds_witness :
  search Sample.loaded "wo" (-1) 100 = Err RequestValidationError /\
  (Search.skip Sample.page_wo = 0 /\ Search.limit Sample.page_wo = 10 /\
   exists m, matched (lower (strip " Wo ")) (message_cache Sample.loaded) = Ok m /\
             total Sample.page_wo = Z.of_nat (length m) /\
             items Sample.page_wo = take (Z.to_nat 10) (drop (Z.to_nat 0) m)).
Proof.
  split.
  - apply (search_bounds Sample.loaded "wo" (-1) 100). lia.
  - apply (search_bounds Sample.loaded " Wo " 0 10);
      [lia | lia | vm_compute; reflexivity].
Defined.

End EndpointClaims.
(** ** The loader *)

Section LoaderFacts.
Import Loader.

Lemma steps_refl (w : world) : steps w w [].
Proof. split; [done|]. exists []. by rewrite app_nil_r. Qed.

Lemma steps_trans (w1 w2 w3 : world) (c1 c2 : list response) :
  steps w1 w2 c1 -> globals w2 = globals w1 -> steps w2 w3 c2 ->
  steps w1 w3 (c1 ++ c2).
Proof.
  intros [Hu1 (n1 & Ht1 & Hf1)] Hg [Hu2 (n2 & Ht2 & Hf2)]. split.
  - by rewrite Hu1, Hu2, app_assoc.
  - exists (n1 ++ n2). split; [by rewrite Ht2, Ht1, app_assoc|].
    rewrite Hg in Hf2. by apply Forall_app.
Qed.

Lemma steps_suspend (ev : event) (w : world) : steps w (suspend ev w) [].
Proof.
  split; [done|]. exists [(ev, globals w)]. split; [done|].
  by repeat constructor.
Qed.

Lemma client_get_steps (sk lim : Z) (w w' : world) (r : response) :
  client_get sk lim w = Some (r, w') -> steps w w' [r] /\ globals w' = globals w.
Proof.
  unfold client_get. simpl. destruct (upstream w) as [|r' rest] eqn:Hu; [done|].
  intros [= -> <-]. split; [|done]. split; [done|].
  exists [(EvGet sk lim, globals w)]. split; [done|]. by repeat constructor.
Qed.

Lemma steps_publish (all : list record) (w w' : world) (c : list response) :
  steps w w' c -> steps w (publish all w') c.
Proof. done. Qed.

Lemma steps_publish_partial (all : list record) (w w' : world) (c : list response) :
  steps w w' c -> steps w (publish_partial all w') c.
Proof. done. Qed.

Lemma fetched_app (c1 c2 : list response) :
  fetched (c1 ++ c2) = fetched c1 ++ fetched c2.
Proof. unfold fetched. by rewrite map_app, concat_app. Qed.

(** The invariant carries over an answer taken before the rest of the pass. *)
Lemma page_inv_step (success success2 : bool) (s s2 : session) (w w2 : world)
      (r : response) (o : outcome page_exit) :
  steps w w2 [r] -> globals w2 = globals w ->
  all_messages s2 = all_messages s ++ page_of r ->
  page_inv success2 s2 w2 o -> page_inv success s w o.
Proof.
  intros Hst Hg Hall.
  destruct o as [[w'|success' s' w']|w'|]; simpl; [| | |done].
  - intros (c & Hc & Hg'). exists (r :: c). split.
    + by apply (steps_trans w w2 w' [r] c).
    + rewrite Hg', Hall. cbn [fetched map concat]. by rewrite <- app_assoc.
  - intros (c & Hc & Hg' & Hall' & _). exists (r :: c). split.
    + by apply (steps_trans w w2 w' [r] c).
    + split; [congruence|]. split; [|done].
      rewrite Hall', Hall. cbn [fetched map concat]. by rewrite <- app_assoc.
  - intros (c & Hc & Hg' & Hup). exists (r :: c). split.
    + by apply (steps_trans w w2 w' [r] c).
    + split; [congruence | done].
Qed.

Lemma steps_then_sleep (w w1 : world) (c : list response) (t : Z) :
  steps w w1 c -> globals w1 = globals w -> steps w (sleep t w1) c.
Proof.
  intros H Hg. rewrite <- (app_nil_r c).
  eapply steps_trans; [done | done | apply steps_suspend].
Qed.

Lemma retry_loop_inv (gas : nat) (retry_count : Z) (success : bool)
      (s : session) (w : world) :
  page_inv success s w (retry_loop gas retry_count success s w).
Proof.
  revert retry_count success s w.
  induction gas as [|gas IH]; intros retry_count success s w; [done|].
  cbn [retry_loop].
  destruct ((retry_count <? max_retries) && negb success) eqn:Hcond.
  2:{ exists []. split; [apply steps_refl|]. split; [done|].
      split; [cbn; by rewrite app_nil_r | congruence]. }
  destruct (client_get (skip s) limit w) as [[r w1]|] eqn:Hget.
  2:{ exists []. split; [apply steps_suspend|]. split; [done|].
      unfold client_get in Hget. simpl in *. by destruct (upstream w). }
  apply client_get_steps in Hget as [Hst Hg].
  destruct r as [items total|code|].
  - destruct (default [] items) as [|x xs] eqn:Hitems.
    + exists [RespPage items total]. split; [by apply steps_publish|].
      cbn [fetched map concat page_of]. rewrite Hitems. simpl.
      by rewrite app_nil_r.
    + destruct (Z.of_nat (length (all_messages s ++ x :: xs)) >=? default 0 total).
      * exists [RespPage items total]. split.
        { by apply steps_publish, steps_then_sleep. }
        cbn [fetched map concat page_of]. rewrite Hitems. simpl.
        by rewrite app_nil_r.
      * eapply (page_inv_step _ _ _ _ _ _ (RespPage items total)); [| | |apply IH].
        -- by apply steps_then_sleep.
        -- done.
        -- cbn [all_messages page_of]. by rewrite Hitems.
  - destruct (existsb (Z.eqb code) retry_statuses).
    + eapply (page_inv_step _ _ _ _ _ _ (RespStatus code)); [| | |apply IH].
      * by apply steps_then_sleep.
      * done.
      * cbn [page_of]. by rewrite app_nil_r.
    + exists [RespStatus code]. split; [done|]. split; [done|].
      split; [|done]. cbn [fetched map concat page_of]. by rewrite !app_nil_r.
  - eapply (page_inv_step _ _ _ _ _ _ RespException); [| | |apply IH].
    + destruct (retry_count + 1 <? max_retries); [by apply steps_then_sleep | done].
    + by destruct (retry_count + 1 <? max_retries).
    + cbn [page_of]. by rewrite app_nil_r.
Qed.

Lemma load_loop_inv (gas : nat) (s : session) (w : world) :
  run_inv s w (load_loop gas s w).
Proof.
  revert s w. induction gas as [|gas IH]; intros s w; [done|].
  cbn [load_loop]. pose proof (retry_loop_inv page_gas 0 false s w) as Hp.
  destruct (retry_loop page_gas 0 false s w)
    as [[w'|success' s' w']|w'|]; [done| |done|done].
  destruct Hp as (c & Hc & Hg & Hall & _). destruct success'; cbn [negb].
  - specialize (IH s' w').
    destruct (load_loop gas s' w') as [w''|w''|]; simpl; [| |done].
    + destruct IH as (c' & Hc' & Hg'). exists (c ++ c'). split.
      * by eapply steps_trans.
      * by rewrite Hg', Hall, fetched_app, app_assoc.
    + destruct IH as (c' & Hc' & Hg' & Hup). exists (c ++ c'). split.
      * by eapply steps_trans.
      * split; [congruence | done].
  - exists c. split; [by apply steps_publish_partial|]. simpl. by rewrite Hall.
Qed.

(** The unrolling bounds are never reached. *)
Lemma retry_loop_gas (gas : nat) (retry_count : Z) (success : bool)
      (s : session) (w : world) :
  (1 <= gas)%nat ->
  success = true \/ max_retries - retry_count < Z.of_nat gas ->
  retry_loop gas retry_count success s w <> OutOfGas.
Proof.
  revert retry_count success s w.
  induction gas as [|gas IH]; intros retry_count success s w Hgas Hm; [lia|].
  cbn [retry_loop].
  destruct (Z.ltb_spec retry_count max_retries) as [Hlt|]; [|done].
  destruct success; [done|]. cbn [andb negb].
  destruct Hm as [|Hm]; [done|].
  destruct (client_get (skip s) limit w) as [[[items total|code|] w1]|]; [| | |done].
  - destruct (default [] items); [done|].
    destruct (_ >=? _); [done|]. apply IH; [lia | by left].
  - destruct (existsb _ _); [|done]. apply IH; [lia | right; lia].
  - apply IH; [lia | right; lia].
Qed.

Lemma load_loop_gas (gas : nat) (s : session) (w : world) :
  (length (upstream w) < gas)%nat -> load_loop gas s w <> OutOfGas.
Proof.
  revert s w. induction gas as [|gas IH]; intros s w Hgas; [lia|].
  cbn [load_loop]. pose proof (retry_loop_inv page_gas 0 false s w) as Hp.
  pose proof (retry_loop_gas page_gas 0 false s w) as Hg.
  destruct (retry_loop page_gas 0 false s w)
    as [[w'|success' s' w']|w'|]; [done| |done|].
  - destruct success'; [|done]. cbn [negb]. apply IH.
    destruct Hp as (c & [Hup _] & _ & _ & Hne).
    specialize (Hne eq_refl eq_refl). rewrite Hup, length_app in Hgas.
    destruct c; [done|]. simpl in Hgas. lia.
  - exfalso. apply Hg; [unfold page_gas; lia | right; vm_compute; reflexivity | done].
Qed.

Lemma load_all_messages_gas (w : world) : load_all_messages w <> OutOfGas.
Proof.
  unfold load_all_messages. destruct (cache_loaded (globals w)); [done|].
  apply load_loop_gas. lia.
Qed.

End LoaderFacts.

(** ** The loader on scripts of a known shape *)

Section ScriptFacts.
Import Loader.

Lemma gets_app (tr1 tr2 : list (event * cache)) :
  gets (tr1 ++ tr2) = gets tr1 ++ gets tr2.
Proof.
  induction tr1 as [|[[sk lim|t] g] tr1 IH]; simpl; [done| |done].
  by rewrite IH.
Qed.

Lemma gets_pages_trace (g : cache) (skip : Z) (pages : list (list record * Z)) :
  gets (pages_trace g skip pages) =
  map (fun i => (skip + Z.of_nat i * limit, limit)) (seq 0 (length pages)).
Proof.
  revert skip. induction pages as [|p pages IH]; intros skip; [done|].
  cbn [pages_trace gets length seq map]. f_equal; [f_equal; unfold limit; lia|].
  rewrite IH, <- seq_shift, map_map. apply map_ext. intros i. f_equal.
  unfold limit. lia.
Qed.

Lemma pages_trace_globals (g : cache) (skip : Z) (pages : list (list record * Z)) :
  Forall (fun o => o.2 = g) (pages_trace g skip pages).
Proof.
  revert skip. induction pages as [|p pages IH]; intros skip; simpl;
    repeat constructor. apply IH.
Qed.

Lemma retry_statuses_elem (code : Z) :
  existsb (Z.eqb code) retry_statuses = true <-> code ∈ retry_statuses.
Proof.
  rewrite existsb_exists. split.
  - intros (x & Hin & Heq). apply Z.eqb_eq in Heq as ->.
    by apply list_elem_of_In.
  - intros Hin. exists code. split; [by apply list_elem_of_In | apply Z.eqb_refl].
Qed.

(** One page that lets the loader go on. *)
Lemma load_loop_page (gas : nat) (s : session) (g : cache)
      (items : list record) (total : Z) (rest : list response)
      (tr : list (event * cache)) :
  items <> [] ->
  Z.of_nat (length (all_messages s ++ items)) < total ->
  load_loop (S gas) s
    {| globals := g; upstream := ok_page (items, total) :: rest; trace := tr |} =
  load_loop gas
    {| skip := skip s + limit; all_messages := all_messages s ++ items |}
    {| globals := g; upstream := rest;
       trace := tr ++ [(EvGet (skip s) limit, g); (EvSleep 1, g)] |}.
Proof.
  intros Hne Hlt. cbn [load_loop]. unfold page_gas.
  change (Z.to_nat max_retries) with 5%nat. cbn [retry_loop].
  change (0 <? max_retries) with true. cbn [andb negb].
  unfold client_get, ok_page.
  cbn [suspend upstream globals trace fst snd from_option id].
  destruct items as [|x xs]; [done|].
  destruct (Z.geb_spec (Z.of_nat (length (all_messages s ++ x :: xs))) total);
    [lia|].
  cbn [negb]. unfold sleep, suspend. cbn [globals upstream trace].
  by rewrite <- app_assoc.
Qed.

(** A run of such pages. *)
Lemma load_loop_pages (pages : list (list record * Z)) (gas : nat) (s : session)
      (g : cache) (rest : list response) (tr : list (event * cache)) :
  continuing (all_messages s) pages = true ->
  load_loop (length pages + gas) s
    {| globals := g; upstream := map ok_page pages ++ rest; trace := tr |} =
  load_loop gas
    {| skip := skip s + Z.of_nat (length pages) * limit;
       all_messages := all_messages s ++ concat (map fst pages) |}
    {| globals := g; upstream := rest;
       trace := tr ++ pages_trace g (skip s) pages |}.
Proof.
  revert s tr. induction pages as [|[items total] pages IH]; intros s tr Hc.
  - cbn [length map app Nat.add pages_trace concat]. rewrite !app_nil_r.
    destruct s as [sk al]. cbn [skip all_messages].
    assert (sk + Z.of_nat 0 * limit = sk) as -> by (unfold limit; lia). done.
  - cbn [continuing] in Hc. apply andb_prop in Hc as [Hc Hrest].
    apply andb_prop in Hc as [Hne Hlt].
    apply negb_true_iff, bool_decide_eq_false in Hne.
    apply Z.ltb_lt in Hlt.
    cbn [length map app Nat.add].
    rewrite load_loop_page by done.
    rewrite IH by done. cbn [skip all_messages pages_trace concat map fst].
    rewrite <- !app_assoc. cbn [app].
    assert (skip s + limit + Z.of_nat (length pages) * limit =
            skip s + Z.of_nat (S (length pages)) * limit) as ->
        by (unfold limit; lia).
    done.
Qed.

(** A budget used up by failures: the pass ends without success, at the
    same cursor, having asked once per failure. *)
Lemma retry_loop_exhausted (fails : list response) (gas : nat) (retry_count : Z)
      (s : session) (g : cache) (rest : list response)
      (tr : list (event * cache)) :
  Z.of_nat (length fails) = max_retries - retry_count ->
  forallb is_retryable fails = true ->
  (length fails < gas)%nat ->
  exists tr',
    retry_loop gas retry_count false s
      {| globals := g; upstream := fails ++ rest; trace := tr |} =
    Finished (PageExit false s
      {| globals := g; upstream := rest; trace := tr ++ tr' |}) /\
    gets tr' = replicate (length fails) (skip s, limit) /\
    Forall (fun o => o.2 = g) tr'.
Proof.
  revert gas retry_count tr.
  induction fails as [|r fails IH]; intros gas retry_count tr Hlen Hall Hgas.
  - exists []. destruct gas as [|gas]; [simpl in Hgas; lia|].
    cbn [retry_loop]. simpl in Hlen.
    destruct (Z.ltb_spec retry_count max_retries); [lia|].
    cbn [andb]. by rewrite app_nil_r.
  - destruct gas as [|gas]; [simpl in Hgas; lia|].
    cbn [forallb] in Hall. apply andb_prop in Hall as [Hr Hall].
    cbn [length] in Hlen, Hgas.
    destruct (IH gas (retry_count + 1)
                 (tr ++ [(EvGet (skip s) limit, g);
                         (EvSleep (5 * 2 ^ (retry_count + 1)), g)]))
      as (tr1 & Hrun1 & Hgets1 & Hg1); [lia | done | lia |].
    destruct (IH gas (retry_count + 1)
                 (tr ++ [(EvGet (skip s) limit, g); (EvSleep 5, g)]))
      as (tr2 & Hrun2 & Hgets2 & Hg2); [lia | done | lia |].
    destruct (IH gas (retry_count + 1) (tr ++ [(EvGet (skip s) limit, g)]))
      as (tr3 & Hrun3 & Hgets3 & Hg3); [lia | done | lia |].
    cbn [retry_loop].
    destruct (Z.ltb_spec retry_count max_retries); [|lia]. cbn [andb negb].
    unfold client_get. cbn [suspend upstream globals trace app].
    destruct r as [items total|code|]; [done| |].
    + cbn [is_retryable] in Hr. rewrite Hr.
      unfold sleep, suspend. cbn [globals upstream trace].
      rewrite <- app_assoc. cbn [app].
      exists ([(EvGet (skip s) limit, g);
               (EvSleep (5 * 2 ^ (retry_count + 1)), g)] ++ tr1).
      rewrite app_assoc. split; [done|]. split.
      * cbn [app gets length replicate]. by rewrite Hgets1.
      * by repeat constructor.
    + destruct (retry_count + 1 <? max_retries).
      * unfold sleep, suspend. cbn [globals upstream trace].
        rewrite <- app_assoc. cbn [app].
        exists ([(EvGet (skip s) limit, g); (EvSleep 5, g)] ++ tr2).
        rewrite app_assoc. split; [done|]. split.
        -- cbn [app gets length replicate]. by rewrite Hgets2.
        -- by repeat constructor.
      * exists ([(EvGet (skip s) limit, g)] ++ tr3).
        rewrite app_assoc. split; [done|]. split.
        -- cbn [app gets length replicate]. by rewrite Hgets3.
        -- by repeat constructor.
Qed.

(** One failure with a retryable status. *)
Lemma retry_loop_status_step (gas : nat) (retry_count : Z) (s : session) (g : cache)
      (status_code : Z) (rest : list response) (tr : list (event * cache)) :
  retry_count < max_retries ->
  status_code ∈ retry_statuses ->
  retry_loop (S gas) retry_count false s
    {| globals := g; upstream := RespStatus status_code :: rest; trace := tr |} =
  retry_loop gas (retry_count + 1) false s
    {| globals := g; upstream := rest;
       trace := tr ++ [(EvGet (skip s) limit, g);
                       (EvSleep (5 * 2 ^ (retry_count + 1)), g)] |}.
Proof.
  intros Hlt Hcode. cbn [retry_loop].
  destruct (Z.ltb_spec retry_count max_retries); [|lia]. cbn [andb negb].
  unfold client_get. cbn [suspend upstream globals trace].
  apply retry_statuses_elem in Hcode. rewrite Hcode.
  unfold sleep, suspend. cbn [globals upstream trace].
  by rewrite <- app_assoc.
Qed.

Lemma backoff_trace_S (g : cache) (cursor retry_count : Z) (k : nat) :
  backoff_trace g cursor retry_count (S k) =
  (EvGet cursor limit, g) :: (EvSleep (5 * 2 ^ (retry_count + 1)), g)
  :: backoff_trace g cursor (retry_count + 1) k.
Proof.
  unfold backoff_trace. cbn [seq map concat app].
  rewrite <- seq_shift, map_map.
  rewrite (map_ext _ (fun i => [(EvGet cursor limit, g);
                                (EvSleep (5 * 2 ^ (retry_count + 1 + Z.of_nat i)), g)])).
  - reflexivity.
  - intros i.
    replace (retry_count + Z.of_nat (S i)) with (retry_count + 1 + Z.of_nat i)
      by lia.
    reflexivity.
Qed.

(** Failures with a retryable status that leave the budget unspent or just
    spent: the pass is where it was, that many requests and waits later. *)
Lemma retry_loop_statuses (codes : list Z) (gas : nat) (retry_count : Z)
      (s : session) (g : cache) (rest : list response)
      (tr : list (event * cache)) :
  Forall (fun c => c ∈ retry_statuses) codes ->
  retry_count + Z.of_nat (length codes) <= max_retries ->
  retry_loop (length codes + gas) retry_count false s
    {| globals := g; upstream := map RespStatus codes ++ rest; trace := tr |} =
  retry_loop gas (retry_count + Z.of_nat (length codes)) false s
    {| globals := g; upstream := rest;
       trace := tr ++ backoff_trace g (skip s) retry_count (length codes) |}.
Proof.
  revert retry_count tr.
  induction codes as [|c codes IH]; intros retry_count tr Hall Hlen.
  - cbn [length map app Nat.add]. unfold backoff_trace. cbn [seq map concat].
    by rewrite app_nil_r, Z.add_0_r.
  - apply Forall_cons in Hall as [Hc Hall]. cbn [length] in Hlen.
    cbn [length map app Nat.add].
    replace (retry_count + Z.of_nat (S (length codes)))
      with (retry_count + 1 + Z.of_nat (length codes)) by lia.
    rewrite retry_loop_status_step by (done || lia).
    rewrite IH by (done || lia). rewrite backoff_trace_S, <- app_assoc.
    reflexivity.
Qed.

(** A pass entered with budget left and no success asks first. *)
Lemma retry_loop_first (gas : nat) (retry_count : Z) (s : session) (w : world) :
  retry_count < max_retries ->
  match retry_loop (S gas) retry_count false s w with
  | Finished (PageReturn w') | Finished (PageExit _ _ w') => begins_with_request s w w'
  | _ => True
  end.
Proof.
  intros Hrc. cbn [retry_loop].
  destruct (Z.ltb_spec retry_count max_retries); [|lia]. cbn [andb negb].
  unfold client_get. cbn [suspend upstream globals trace].
  destruct (upstream w) as [|r rest] eqn:Hup; [done|].
  assert (forall t, begins_with_request s w
            {| globals := globals w; upstream := rest;
               trace := (trace w ++ [(EvGet (skip s) limit, globals w)]) ++ t |})
    as Hnow.
  { intros t. split.
    - exists t. cbn [trace]. by rewrite <- app_assoc.
    - cbn [upstream]. rewrite Hup. simpl. lia. }
  assert (forall t (o : outcome page_exit) success2 s2,
            page_inv success2 s2
              {| globals := globals w; upstream := rest;
                 trace := (trace w ++ [(EvGet (skip s) limit, globals w)]) ++ t |} o ->
            match o with
            | Finished (PageReturn w') | Finished (PageExit _ _ w') =>
                begins_with_request s w w'
            | _ => True
            end) as Hlater.
  { intros t o success2 s2 Hinv.
    destruct o as [[w'|success' s' w']|w'|]; [| |done|done].
    - destruct Hinv as (c & [Hu (new & Htr & _)] & _). split.
      + exists (t ++ new). rewrite Htr. cbn [trace]. by rewrite <- !app_assoc.
      + cbn [upstream] in Hu. rewrite Hup, Hu. cbn [length].
        rewrite length_app. lia.
    - destruct Hinv as (c & [Hu (new & Htr & _)] & _). split.
      + exists (t ++ new). rewrite Htr. cbn [trace]. by rewrite <- !app_assoc.
      + cbn [upstream] in Hu. rewrite Hup, Hu. cbn [length].
        rewrite length_app. lia. }
  destruct r as [items total|code|].
  - destruct (default [] items) as [|x xs].
    + specialize (Hnow []). by rewrite app_nil_r in Hnow.
    + destruct (_ >=? _).
      * apply (Hnow [(EvSleep 1, globals w)]).
      * eapply (Hlater [(EvSleep 1, globals w)]). apply retry_loop_inv.
  - destruct (existsb _ _).
    + eapply (Hlater [(EvSleep _, globals w)]). apply retry_loop_inv.
    + specialize (Hnow []). by rewrite app_nil_r in Hnow.
  - destruct (_ <? _).
    + eapply (Hlater [(EvSleep 5, globals w)]). apply retry_loop_inv.
    + eapply Hlater. rewrite app_nil_r. apply retry_loop_inv.
Qed.

(** So does a run that ends. *)
Lemma load_loop_first (gas : nat) (s : session) (w w' : world) :
  load_loop (S gas) s w = Finished w' -> begins_with_request s w w'.
Proof.
  cbn [load_loop]. pose proof (retry_loop_first (Z.to_nat max_retries) 0 s w) as Hp.
  fold page_gas in Hp.
  destruct (retry_loop page_gas 0 false s w)
    as [[w1|success1 s1 w1]|w1|]; [| |done|done].
  - intros [= <-]. by apply Hp.
  - specialize (Hp ltac:(done)). destruct success1; cbn [negb].
    + intros Hrun. pose proof (load_loop_inv gas s1 w1) as Hinv.
      rewrite Hrun in Hinv. destruct Hinv as (c & [Hu (new & Htr & _)] & _).
      destruct Hp as [(new1 & Htr1) Hlen]. split.
      * exists (new1 ++ new). rewrite Htr, Htr1, <- app_assoc. done.
      * rewrite Hu, length_app in Hlen. lia.
    + intros [= <-]. done.
Qed.

End ScriptFacts.

(** ** The loader: the claims *)

Section LoaderClaims.
Import Loader Endpoints.

(** C3. Against an upstream that answers with the pages
    [{items:[A,B], total:3}], [{items:[C], total:3}], [{items:[], total:3}],
    a load from a cache that is not loaded ends with the snapshot [A,B,C]
    and the flag set; the third page is never asked for. *)
Theorem load_three_pages (A B C : record) (snapshot : list record) :
  let g := {| message_cache := snapshot; cache_loaded := false |} in
  load_all_messages
    {| globals := g;
       upstream := [RespPage (Some [A; B]) (Some 3);
                    RespPage (Some [C]) (Some 3);
                    RespPage (Some []) (Some 3)];
       trace := [] |} =
  Finished
    {| globals := {| message_cache := [A; B; C]; cache_loaded := true |};
       upstream := [RespPage (Some []) (Some 3)];
       trace := [(EvGet 0 100, g); (EvSleep 1, g);
                 (EvGet 100 100, g); (EvSleep 1, g)] |}.
Proof. reflexivity. Qed.

(** C4. Five failures in a row that each use up an attempt (a retryable
    status such as 429, or an exception) end the run, whatever has been
    accumulated: nothing after the fifth failure is taken from the
    upstream, the five requests are all at the cursor of the failing page,
    the cache gets exactly the records accumulated before it, and the flag
    is set. So it is for a whole load whose first pages let it go on. *)
Theorem exhausted_retries_abort_run
        (g : cache) (pages : list (list record * Z))
        (fails rest : list response) :
  length fails = 5%nat ->
  forallb is_retryable fails = true ->
  continuing [] pages = true ->
  cache_loaded g = false ->
  (forall gas s tr, exists tr',
     load_loop (S gas) s
       {| globals := g; upstream := fails ++ rest; trace := tr |} =
     Finished
       {| globals := {| message_cache := all_messages s; cache_loaded := true |};
          upstream := rest;
          trace := tr ++ tr' |} /\
     gets tr' = replicate 5 (skip s, limit) /\
     Forall (fun o => o.2 = g) tr') /\
  (exists tr,
     load_all_messages
       {| globals := g; upstream := map ok_page pages ++ fails ++ rest;
          trace := [] |} =
     Finished
       {| globals := {| message_cache := concat (map fst pages);
                        cache_loaded := true |};
          upstream := rest;
          trace := tr |} /\
     gets tr =
       map (fun i => (Z.of_nat i * limit, limit)) (seq 0 (length pages)) ++
       replicate 5 (Z.of_nat (length pages) * limit, limit) /\
     Forall (fun o => o.2 = g) tr).
Proof.
  intros Hlen Hfails Hpages Hflag.
  assert (forall gas s tr, exists tr',
     load_loop (S gas) s
       {| globals := g; upstream := fails ++ rest; trace := tr |} =
     Finished
       {| globals := {| message_cache := all_messages s; cache_loaded := true |};
          upstream := rest;
          trace := tr ++ tr' |} /\
     gets tr' = replicate 5 (skip s, limit) /\
     Forall (fun o => o.2 = g) tr') as Hloop.
  { intros gas s tr.
    destruct (retry_loop_exhausted fails page_gas 0 s g rest tr)
      as (tr' & Hrun & Hgets & Hg).
    - rewrite Hlen. reflexivity.
    - done.
    - rewrite Hlen. unfold page_gas. change (Z.to_nat max_retries) with 5%nat. lia.
    - exists tr'. cbn [load_loop]. rewrite Hrun. cbn [negb].
      rewrite Hlen in Hgets. done. }
  split; [exact Hloop|].
  destruct (Hloop (length rest + 5)%nat
              {| skip := 0 + Z.of_nat (length pages) * limit;
                 all_messages := [] ++ concat (map fst pages) |}
              ([] ++ pages_trace g 0 pages))
    as (tr' & Hrun & Hgets & Hg).
  exists (pages_trace g 0 pages ++ tr'). split; [|split].
  - unfold load_all_messages. cbn [globals upstream]. rewrite Hflag.
    rewrite !length_app, length_map, Hlen.
    replace (S (length pages + (5 + length rest)))
      with (length pages + S (length rest + 5))%nat by lia.
    rewrite (load_loop_pages pages _ {| skip := 0; all_messages := [] |})
      by done.
    cbn [skip all_messages]. exact Hrun.
  - rewrite gets_app, gets_pages_trace, Hgets. cbn [skip]. f_equal.
  - apply Forall_app. split; [apply pages_trace_globals | done].
Qed.

Lemma exhausted_retries_abort_run_witness :
  (forall gas s tr, exists tr',
     load_loop (S gas) s
       {| globals := Sample.unloaded;
          upstream := replicate 5 (RespStatus 429) ++ Sample.refresh_script;
          trace := tr |} =
     Finished
       {| globals := {| message_cache := all_messages s; cache_loaded := true |};
          upstream := Sample.refresh_script;
          trace := tr ++ tr' |} /\
     gets tr' = replicate 5 (skip s, limit) /\
     Forall (fun o => o.2 = Sample.unloaded) tr') /\
  (exists tr,
     load_all_messages
       {| globals := Sample.unloaded;
          upstream := map ok_page [([Sample.msg_hello], 3)] ++
                      replicate 5 (RespStatus 429) ++ Sample.refresh_script;
          trace := [] |} =
     Finished
       {| globals := {| message_cache := concat (map fst [([Sample.msg_hello], 3)]);
                        cache_loaded := true |};
          upstream := Sample.refresh_script;
          trace := tr |} /\
     gets tr =
       map (fun i => (Z.of_nat i * limit, limit))
           (seq 0 (length [([Sample.msg_hello], 3)])) ++
       replicate 5 (Z.of_nat (length [([Sample.msg_hello], 3)]) * limit, limit) /\
     Forall (fun o => o.2 = Sample.unloaded) tr).
Proof.
  apply (exhausted_retries_abort_run Sample.unloaded [([Sample.msg_hello], 3)]
           (replicate 5 (RespStatus 429)) Sample.refresh_script);
    vm_compute; reflexivity.
Defined.

(** C5, as the specification has it, fails: after one 429 the loader
    sleeps 10 seconds before it asks again, not [5 * 2^0 = 5]. *)
Lemma first_backoff_is_ten :
  run_events
    (load_all_messages
       {| globals := Sample.unloaded;
          upstream := [RespStatus 429; RespPage (Some []) None];
          trace := [] |}) =
  [EvGet 0 100; EvSleep 10; EvGet 0 100] /\
  EvSleep (5 * 2 ^ 0) ∉ [EvGet 0 100; EvSleep 10; EvGet 0 100].
Proof.
  split; [reflexivity|].
  rewrite !elem_of_cons, elem_of_nil. intros [H|[H|[H|[]]]]; discriminate.
Qed.

(** C5, amended. On a failure with one of the statuses 400, 401, 402, 403,
    404, 405, 429 the loader adds one to [retry_count], sleeps
    [5 * 2^retry_count] seconds with the count it has just raised, and asks
    again at the same cursor while the count is below 5. So after [k] such
    failures met at [retry_count], with budget left, the answer that comes
    next is asked for at the same cursor, [k] requests and [k] waits later;
    when they use the budget up, the pass ends without success after the
    last wait; and a page that fails five times from the start has waited
    10, 20, 40, 80 and 160 seconds when the run is given up. *)
Theorem backoff_after_retryable_statuses
        (codes : list Z) (gas : nat) (retry_count : Z) (s : session) (g : cache)
        (rest : list response) (tr : list (event * cache)) :
  Forall (fun c => c ∈ retry_statuses) codes ->
  (length codes < gas)%nat ->
  (retry_count + Z.of_nat (length codes) < max_retries ->
   forall items total, default [] items = [] ->
     retry_loop gas retry_count false s
       {| globals := g;
          upstream := map RespStatus codes ++ RespPage items total :: rest;
          trace := tr |} =
     Finished (PageReturn
       {| globals := {| message_cache := all_messages s; cache_loaded := true |};
          upstream := rest;
          trace := tr ++ backoff_trace g (skip s) retry_count (length codes) ++
                   [(EvGet (skip s) limit, g)] |})) /\
  (retry_count + Z.of_nat (length codes) = max_retries ->
   retry_loop gas retry_count false s
     {| globals := g; upstream := map RespStatus codes ++ rest; trace := tr |} =
   Finished (PageExit false s
     {| globals := g; upstream := rest;
        trace := tr ++ backoff_trace g (skip s) retry_count (length codes) |})) /\
  (length codes = 5%nat ->
   load_loop gas s
     {| globals := g; upstream := map RespStatus codes ++ rest; trace := tr |} =
   Finished
     {| globals := {| message_cache := all_messages s; cache_loaded := true |};
        upstream := rest;
        trace := tr ++ [(EvGet (skip s) limit, g); (EvSleep 10, g);
                        (EvGet (skip s) limit, g); (EvSleep 20, g);
                        (EvGet (skip s) limit, g); (EvSleep 40, g);
                        (EvGet (skip s) limit, g); (EvSleep 80, g);
                        (EvGet (skip s) limit, g); (EvSleep 160, g)] |}).
Proof.
  intros Hcodes Hgas.
  assert (exists gas', gas = (length codes + S gas')%nat) as [gas' ->].
  { exists (gas - S (length codes))%nat. lia. }
  split; [|split].
  - intros Hlt items total Hitems.
    rewrite retry_loop_statuses by (done || lia). cbn [retry_loop].
    destruct (Z.ltb_spec (retry_count + Z.of_nat (length codes)) max_retries);
      [|lia].
    cbn [andb negb]. unfold client_get. cbn [suspend upstream globals trace].
    rewrite Hitems. unfold publish, set_message_cache, set_cache_loaded.
    cbn [globals upstream trace message_cache cache_loaded].
    by rewrite <- app_assoc.
  - intros Heq. rewrite retry_loop_statuses by (done || lia). cbn [retry_loop].
    destruct (Z.ltb_spec (retry_count + Z.of_nat (length codes)) max_retries);
      [lia | done].
  - intros Hfive.
    replace (length codes + S gas')%nat with (S (length codes + gas')) by lia.
    cbn [load_loop].
    assert (page_gas = (length codes + 1)%nat) as -> by (by rewrite Hfive).
    rewrite retry_loop_statuses by (done || rewrite Hfive; unfold max_retries; lia).
    rewrite Hfive. cbn [retry_loop].
    change (0 + Z.of_nat 5 <? max_retries) with false. cbn [andb negb].
    unfold publish_partial, set_message_cache, set_cache_loaded.
    cbn [globals upstream trace message_cache cache_loaded]. reflexivity.
Qed.

Lemma backoff_after_retryable_statuses_witness :
  retry_loop 6 0 false {| skip := 200; all_messages := [Sample.msg_hello] |}
    {| globals := Sample.unloaded;
       upstream := map RespStatus [429; 400] ++ RespPage None None :: [];
       trace := [] |} =
  Finished (PageReturn
    {| globals := {| message_cache := [Sample.msg_hello]; cache_loaded := true |};
       upstream := [];
       trace := [] ++ backoff_trace Sample.unloaded 200 0 2 ++
                [(EvGet 200 limit, Sample.unloaded)] |}) /\
  load_loop 6 {| skip := 200; all_messages := [Sample.msg_hello] |}
    {| globals := Sample.unloaded;
       upstream := map RespStatus [429; 429; 429; 429; 429] ++ [];
       trace := [] |} =
  Finished
    {| globals := {| message_cache := [Sample.msg_hello]; cache_loaded := true |};
       upstream := [];
       trace := [] ++ [(EvGet 200 limit, Sample.unloaded); (EvSleep 10, Sample.unloaded);
                       (EvGet 200 limit, Sample.unloaded); (EvSleep 20, Sample.unloaded);
                       (EvGet 200 limit, Sample.unloaded); (EvSleep 40, Sample.unloaded);
                       (EvGet 200 limit, Sample.unloaded); (EvSleep 80, Sample.unloaded);
                       (EvGet 200 limit, Sample.unloaded);
                       (EvSleep 160, Sample.unloaded)] |}.
Proof.
  split.
  - apply (backoff_after_retryable_statuses [429; 400] 6 0
             {| skip := 200; all_messages := [Sample.msg_hello] |}
             Sample.unloaded [] []).
    + repeat constructor; by apply retry_statuses_elem.
    + simpl. lia.
    + reflexivity.
    + reflexivity.
  - apply (backoff_after_retryable_statuses [429; 429; 429; 429; 429] 6 0
             {| skip := 200; all_messages := [Sample.msg_hello] |}
             Sample.unloaded [] []).
    + repeat constructor; by apply retry_statuses_elem.
    + simpl. lia.
    + reflexivity.
Defined.

(** The whole ladder of one page that fails with 429 five times. *)
Example backoff_ladder :
  run_events
    (load_all_messages
       {| globals := Sample.unloaded;
          upstream := replicate 5 (RespStatus 429);
          trace := [] |}) =
  [EvGet 0 100; EvSleep 10; EvGet 0 100; EvSleep 20; EvGet 0 100; EvSleep 40;
   EvGet 0 100; EvSleep 80; EvGet 0 100; EvSleep 160].
Proof. reflexivity. Qed.

(** C7. A load against a loaded cache ends at once: nothing is asked of
    the upstream and the world is as it was. A refresh clears the flag and
    runs the load, which now goes through the loop from cursor 0 with an
    empty list: a refresh that ends has begun with a request at cursor 0,
    seen with the flag unset beside the old snapshot, and has taken at least
    one answer; the flag is then set and the snapshot is exactly the records
    of the answers this run took, whatever the snapshot was before. On a
    script of pages that let the loader go on and a last page that reaches
    its total, the refresh ends with exactly the records of those pages and
    answers their number. *)
Theorem load_guard_and_refresh (w : world) :
  (cache_loaded (globals w) = true -> load_all_messages w = Finished w) /\
  load_all_messages (set_cache_loaded false w) =
    load_loop (S (length (upstream w))) {| skip := 0; all_messages := [] |}
              (set_cache_loaded false w) /\
  refresh_cache w <> OutOfGas /\
  (forall w' n, refresh_cache w = Finished (w', n) ->
     exists consumed,
       upstream w = consumed ++ upstream w' /\
       globals w' = {| message_cache := fetched consumed; cache_loaded := true |} /\
       n = Z.of_nat (length (fetched consumed))) /\
  refresh_cache w =
    match load_loop (S (length (upstream w))) {| skip := 0; all_messages := [] |}
                    (set_cache_loaded false w) with
    | Finished w' => Finished (w', Z.of_nat (length (message_cache (globals w'))))
    | Unscripted w' => Unscripted w'
    | OutOfGas => OutOfGas
    end /\
  (forall w' n, refresh_cache w = Finished (w', n) ->
     (exists new,
        trace w' =
        trace w ++
        (EvGet 0 limit, {| message_cache := message_cache (globals w);
                           cache_loaded := false |}) :: new) /\
     (length (upstream w') < length (upstream w))%nat) /\
  (forall pages items total rest,
     upstream w = map ok_page pages ++ RespPage (Some items) total :: rest ->
     continuing [] pages = true ->
     items <> [] ->
     default 0 total <= Z.of_nat (length (concat (map fst pages) ++ items)) ->
     let g := {| message_cache := message_cache (globals w); cache_loaded := false |} in
     refresh_cache w =
     Finished
       ({| globals := {| message_cache := concat (map fst pages) ++ items;
                         cache_loaded := true |};
           upstream := rest;
           trace := trace w ++ pages_trace g 0 pages ++
                    [(EvGet (Z.of_nat (length pages) * limit) limit, g);
                     (EvSleep 1, g)] |},
        Z.of_nat (length (concat (map fst pages) ++ items)))).
Proof.
  split; [|split; [|split; [|split; [|split; [|split]]]]].
  - intros H. unfold load_all_messages. by rewrite H.
  - reflexivity.
  - unfold refresh_cache.
    pose proof (load_all_messages_gas (set_cache_loaded false w)) as Hgas.
    by destruct (load_all_messages (set_cache_loaded false w)).
  - intros w' n. unfold refresh_cache, load_all_messages.
    cbn [set_cache_loaded globals cache_loaded upstream].
    pose proof (load_loop_inv (S (length (upstream w)))
                  {| skip := 0; all_messages := [] |}
                  (set_cache_loaded false w)) as Hinv.
    destruct (load_loop _ _ _) as [w1|w1|]; [|done|done].
    intros [= -> <-]. destruct Hinv as (c & [Hup _] & Hg).
    exists c. split; [done|]. split; [done|]. by rewrite Hg.
  - reflexivity.
  - intros w' n. unfold refresh_cache, load_all_messages.
    cbn [set_cache_loaded globals cache_loaded upstream].
    destruct (load_loop _ _ _) as [w1|w1|] eqn:Hrun; [|done|done].
    intros [= -> <-]. apply load_loop_first in Hrun. exact Hrun.
  - intros pages items total rest Hup Hpages Hitems Htotal g.
    unfold refresh_cache, load_all_messages, set_cache_loaded.
    cbn [globals cache_loaded upstream]. fold g. rewrite Hup.
    rewrite length_app, length_map, <- Nat.add_succ_r.
    rewrite (load_loop_pages pages _ {| skip := 0; all_messages := [] |}) by done.
    cbn [skip all_messages length load_loop app]. unfold page_gas.
    change (Z.to_nat max_retries) with 5%nat. cbn [retry_loop].
    change (0 <? max_retries) with true. cbn [andb negb].
    unfold client_get. cbn [suspend upstream globals trace from_option id].
    destruct items as [|x xs]; [done|].
    cbn [skip all_messages app].
    match goal with
    | |- context [?n >=? ?t] => destruct (Z.geb_spec n t); [|lia]
    end.
    unfold publish, sleep, suspend, set_message_cache, set_cache_loaded.
    cbn [globals upstream trace cache_loaded message_cache].
    rewrite <- !app_assoc. cbn [app].
    assert (0 + Z.of_nat (length pages) * limit = Z.of_nat (length pages) * limit)
      as -> by (unfold limit; lia).
    done.
Qed.

Lemma load_guard_and_refresh_witness :
  load_all_messages Sample.served = Finished Sample.served /\
  (exists consumed,
     upstream Sample.served = consumed ++ [] /\
     {| message_cache := [Sample.msg_lunch; Sample.msg_anon]; cache_loaded := true |} =
     {| message_cache := fetched consumed; cache_loaded := true |} /\
     2 = Z.of_nat (length (fetched consumed))) /\
  refresh_cache Sample.served =
  Finished
    ({| globals := {| message_cache :=
                        concat (map fst [([Sample.msg_lunch], 2)]) ++ [Sample.msg_anon];
                      cache_loaded := true |};
        upstream := [];
        trace := trace Sample.served ++
                 pages_trace (Sample.unloaded_of Sample.loaded) 0
                             [([Sample.msg_lunch], 2)] ++
                 [(EvGet (Z.of_nat (length [([Sample.msg_lunch], 2)]) * limit) limit,
                   Sample.unloaded_of Sample.loaded);
                  (EvSleep 1, Sample.unloaded_of Sample.loaded)] |},
     Z.of_nat (length (concat (map fst [([Sample.msg_lunch], 2)]) ++ [Sample.msg_anon]))).
Proof.
  split; [|split].
  - apply (load_guard_and_refresh Sample.served). reflexivity.
  - apply (proj1 (proj2 (proj2 (proj2 (load_guard_and_refresh Sample.served))))
             {| globals := {| message_cache := [Sample.msg_lunch; Sample.msg_anon];
                              cache_loaded := true |};
                upstream := [];
                trace := [(EvGet 0 100, Sample.unloaded_of Sample.loaded);
                          (EvSleep 1, Sample.unloaded_of Sample.loaded);
                          (EvGet 100 100, Sample.unloaded_of Sample.loaded);
                          (EvSleep 1, Sample.unloaded_of Sample.loaded)] |} 2).
    vm_compute. reflexivity.
  - apply (proj2 (proj2 (proj2 (proj2 (proj2 (proj2
             (load_guard_and_refresh Sample.served))))))
             [([Sample.msg_lunch], 2)] [Sample.msg_anon] (Some 2) []).
    + reflexivity.
    + reflexivity.
    + discriminate.
    + vm_compute. discriminate.
Defined.

(** C9. In a load from a cache that is not loaded, every suspension, the
    only points where a reader runs, shows the flag still unset; when the
    load ends the flag is set and the snapshot is the list accumulated from
    the answers taken. So no reader sees the flag set beside another
    snapshot, and none sees a list half built: until then the globals are
    the ones the load started from. A load that is still waiting has
    shown nothing else either. *)
Theorem publish_is_atomic (w : world) :
  cache_loaded (globals w) = false ->
  match load_all_messages w with
  | Finished w' =>
      exists consumed new,
        upstream w = consumed ++ upstream w' /\
        trace w' = trace w ++ new /\
        Forall (fun o => o.2 = globals w /\ cache_loaded o.2 = false) new /\
        globals w' = {| message_cache := fetched consumed; cache_loaded := true |}
  | Unscripted w' =>
      exists new,
        trace w' = trace w ++ new /\
        Forall (fun o => o.2 = globals w /\ cache_loaded o.2 = false) new /\
        globals w' = globals w
  | OutOfGas => False
  end.
Proof.
  intros Hflag. pose proof (load_all_messages_gas w) as Hgas.
  unfold load_all_messages in *. rewrite Hflag in *.
  pose proof (load_loop_inv (S (length (upstream w)))
                {| skip := 0; all_messages := [] |} w) as Hinv.
  destruct (load_loop _ _ _) as [w'|w'|]; [| |done].
  - destruct Hinv as (c & [Hup (new & Htr & Hobs)] & Hg).
    exists c, new. repeat split; [done | done | | done].
    eapply Forall_impl; [exact Hobs|]. intros o Ho. by rewrite Ho.
  - destruct Hinv as (c & [Hup (new & Htr & Hobs)] & Hg & _).
    exists new. repeat split; [done | | done].
    eapply Forall_impl; [exact Hobs|]. intros o Ho. by rewrite Ho.
Qed.

Lemma publish_is_atomic_witness :
  match load_all_messages (set_cache_loaded false Sample.served) with
  | Finished w' =>
      exists consumed new,
        upstream (set_cache_loaded false Sample.served) = consumed ++ upstream w' /\
        trace w' = trace (set_cache_loaded false Sample.served) ++ new /\
        Forall (fun o => o.2 = globals (set_cache_loaded false Sample.served) /\
                         cache_loaded o.2 = false) new /\
        globals w' = {| message_cache := fetched consumed; cache_loaded := true |}
  | Unscripted w' =>
      exists new,
        trace w' = trace (set_cache_loaded false Sample.served) ++ new /\
        Forall (fun o => o.2 = globals (set_cache_loaded false Sample.served) /\
                         cache_loaded o.2 = false) new /\
        globals w' = globals (set_cache_loaded false Sample.served)
  | OutOfGas => False
  end.
Proof.
  apply (publish_is_atomic (set_cache_loaded false Sample.served)). reflexivity.
Defined.

(** C10. A page that has items and no [total] is read with [total = 0]:
    the count accumulated is at least that, so after the pages before it
    and this one the run ends with the flag set and the snapshot holding
    the records up to and including this page; nothing more is asked. *)
Theorem missing_total_ends_run
        (snapshot : list record) (pages : list (list record * Z))
        (items : list record) (rest : list response) :
  continuing [] pages = true ->
  items <> [] ->
  let g := {| message_cache := snapshot; cache_loaded := false |} in
  load_all_messages
    {| globals := g;
       upstream := map ok_page pages ++ RespPage (Some items) None :: rest;
       trace := [] |} =
  Finished
    {| globals := {| message_cache := concat (map fst pages) ++ items;
                     cache_loaded := true |};
       upstream := rest;
       trace := pages_trace g 0 pages ++
                [(EvGet (Z.of_nat (length pages) * limit) limit, g);
                 (EvSleep 1, g)] |}.
Proof.
  intros Hpages Hitems g. unfold load_all_messages.
  change (cache_loaded (globals _)) with false.
  cbn [globals cache_loaded upstream].
  rewrite length_app, length_map, <- Nat.add_succ_r.
  rewrite (load_loop_pages pages _ {| skip := 0; all_messages := [] |}) by done.
  cbn [skip all_messages length load_loop]. unfold page_gas.
  change (Z.to_nat max_retries) with 5%nat. cbn [retry_loop].
  change (0 <? max_retries) with true. cbn [andb negb].
  unfold client_get. cbn [suspend upstream globals trace from_option id].
  destruct items as [|x xs]; [done|].
  cbn [skip all_messages app].
  match goal with
  | |- context [?n >=? 0] => destruct (Z.geb_spec n 0); [|lia]
  end.
  unfold publish, sleep, suspend, set_message_cache, set_cache_loaded.
  cbn [globals upstream trace cache_loaded message_cache app].
  rewrite <- app_assoc. cbn [app].
  assert (0 + Z.of_nat (length pages) * limit = Z.of_nat (length pages) * limit)
    as -> by (unfold limit; lia).
  done.
Qed.

Lemma missing_total_ends_run_witness :
  let g := {| message_cache := Sample.snapshot; cache_loaded := false |} in
  load_all_messages
    {| globals := g;
       upstream := map ok_page [([Sample.msg_hello], 3)] ++
                   RespPage (Some [Sample.msg_lunch]) None :: Sample.refresh_script;
       trace := [] |} =
  Finished
    {| globals := {| message_cache := concat (map fst [([Sample.msg_hello], 3)]) ++
                                      [Sample.msg_lunch];
                     cache_loaded := true |};
       upstream := Sample.refresh_script;
       trace := pages_trace g 0 [([Sample.msg_hello], 3)] ++
                [(EvGet (Z.of_nat (length [([Sample.msg_hello], 3)]) * limit) limit, g);
                 (EvSleep 1, g)] |}.
Proof.
  apply (missing_total_ends_run Sample.snapshot [([Sample.msg_hello], 3)]
           [Sample.msg_lunch] Sample.refresh_script).
  - reflexivity.
  - discriminate.
Defined.

End LoaderClaims.

(** * Further properties

    ** Strings *)

Section MoreStringFacts.
Import PyStr.

Lemma lower_char_idempotent (c : ascii) : lower_char (lower_char c) = lower_char c.
Proof.
  destruct c as [b0 b1 b2 b3 b4 b5 b6 b7].
  destruct b0, b1, b2, b3, b4, b5, b6, b7; reflexivity.
Qed.

Lemma lower_idempotent (s : string) : lower (lower s) = lower s.
Proof.
  induction s as [|c s IH]; [done|].
  cbn [lower]. by rewrite lower_char_idempotent, IH.
Qed.

Lemma contains_empty (s : string) : contains "" s = true.
Proof. by destruct s. Qed.

Lemma rstrip_idempotent (s : string) : rstrip (rstrip s) = rstrip s.
Proof.
  induction s as [|c s IH]; [done|]. cbn [rstrip].
  destruct (rstrip s) as [|d u] eqn:Hr.
  - destruct (is_space c) eqn:Hc; [done|]. cbn [rstrip]. by rewrite Hc.
  - cbn [rstrip]. cbn [rstrip] in IH. by rewrite IH.
Qed.

Lemma lstrip_starts_clean (s : string) : starts_clean (lstrip s).
Proof.
  induction s as [|c s IH]; [done|]. cbn [lstrip].
  by destruct (is_space c) eqn:Hc.
Qed.

Lemma rstrip_starts_clean (s : string) : starts_clean s -> starts_clean (rstrip s).
Proof.
  destruct s as [|c s]; [done|]. cbn [starts_clean rstrip]. intros Hc.
  destruct (rstrip s); [by rewrite Hc | done].
Qed.

Lemma lstrip_clean (s : string) : starts_clean s -> lstrip s = s.
Proof. destruct s as [|c s]; [done|]. cbn [starts_clean lstrip]. by intros ->. Qed.

Lemma strip_idempotent (s : string) : strip (strip s) = strip s.
Proof.
  unfold strip.
  rewrite (lstrip_clean (rstrip (lstrip s)))
    by apply rstrip_starts_clean, lstrip_starts_clean.
  apply rstrip_idempotent.
Qed.

End MoreStringFacts.

(** ** The scan *)

Section MoreSearch.
Import PyStr Search Endpoints.

Lemma py_slice_length {A} (l : list A) (lo n : Z) :
  0 <= n ->
  Z.of_nat (length (py_slice l lo (lo + n))) <= n /\
  (length (py_slice l lo (lo + n)) <= length l)%nat.
Proof.
  intros Hn. unfold py_slice, slice_bound. rewrite length_take, length_drop.
  destruct (Z.ltb_spec lo 0), (Z.ltb_spec (lo + n) 0); lia.
Qed.

Lemma msg_matches_error (ql : string) (msg : record) (e : py_error) :
  msg_matches ql msg = Err e -> e = AttributeError.
Proof.
  assert (forall f e', field_matches ql msg f = Err e' -> e' = AttributeError) as Hf.
  { intros f e'. unfold field_matches, get_lower.
    destruct (msg !! f) as [[| | |]|]; unfold bind; congruence. }
  unfold msg_matches.
  destruct (field_matches ql msg "message") as [[|]|e1] eqn:H1; unfold bind at 1;
    [done| |intros [= <-]; by eapply Hf].
  destruct (field_matches ql msg "user_name") as [[|]|e2] eqn:H2; unfold bind at 1;
    [done| |intros [= <-]; by eapply Hf].
  apply Hf.
Qed.

Lemma matched_app (ql : string) (c1 c2 m1 m2 : list record) :
  matched ql c1 = Ok m1 -> matched ql c2 = Ok m2 ->
  matched ql (c1 ++ c2) = Ok (m1 ++ m2).
Proof.
  revert m1. induction c1 as [|msg c1 IH]; intros m1; cbn [matched app].
  - by intros [= <-].
  - destruct (msg_matches ql msg) as [b|]; unfold bind at 1; [|done].
    destruct (matched ql c1) as [tl|]; unfold bind at 1; [|done].
    intros [= <-] H2. rewrite (IH tl eq_refl H2). unfold bind.
    by destruct b.
Qed.

(** X1. A page never holds more records than [limit] asks for, nor more
    than there are matches; the matches are never more than the snapshot,
    whose size is reported as it is. *)
Theorem search_page_bounds
        (message_cache : list record) (query : string) (skip limit : Z)
        (r : search_result) :
  0 <= limit ->
  search_messages message_cache query skip limit = Ok r ->
  Z.of_nat (length (items r)) <= limit /\
  Z.of_nat (length (items r)) <= total r /\
  0 <= total r <= cache_size r /\
  cache_size r = Z.of_nat (length message_cache).
Proof.
  intros Hlimit. unfold search_messages.
  destruct (matched (lower query) message_cache) as [m|] eqn:Hm; [|done].
  unfold bind. intros [= <-]. cbn [items total cache_size].
  destruct (py_slice_length m skip limit Hlimit) as [H1 H2].
  apply matched_sublist, sublist_length in Hm. lia.
Qed.

Lemma search_page_bounds_witness :
  Z.of_nat (length (items Sample.page_wo)) <= 10 /\
  Z.of_nat (length (items Sample.page_wo)) <= total Sample.page_wo /\
  0 <= total Sample.page_wo <= cache_size Sample.page_wo /\
  cache_size Sample.page_wo = Z.of_nat (length Sample.snapshot).
Proof.
  apply (search_page_bounds Sample.snapshot "WO" 0 10 Sample.page_wo).
  - lia.
  - vm_compute. reflexivity.
Defined.

(** X2. The count of matches does not depend on the window asked for, and
    a window that starts at or after that count is empty. *)
Theorem search_total_and_far_skip
        (message_cache : list record) (query : string)
        (skip limit skip' limit' : Z) (r r' : search_result) :
  search_messages message_cache query skip limit = Ok r ->
  search_messages message_cache query skip' limit' = Ok r' ->
  total r' = total r /\ (total r <= skip -> items r = []).
Proof.
  unfold search_messages.
  destruct (matched (lower query) message_cache) as [m|]; [|done].
  unfold bind. intros [= <-] [= <-]. cbn [items total]. split; [done|].
  intros Hskip. unfold py_slice, slice_bound.
  destruct (Z.ltb_spec skip 0); [lia|].
  rewrite drop_ge by lia. apply take_nil.
Qed.

Lemma search_total_and_far_skip_witness :
  total Sample.page_wo = 2 /\
  items {| total := 2; items := []; skip := 2; limit := 10; cache_size := 3 |} = [].
Proof.
  split.
  - apply (search_total_and_far_skip Sample.snapshot "WO" 2 10 0 10
             {| total := 2; items := []; skip := 2; limit := 10; cache_size := 3 |}
             Sample.page_wo); vm_compute; reflexivity.
  - apply (search_total_and_far_skip Sample.snapshot "WO" 2 10 0 10
             {| total := 2; items := []; skip := 2; limit := 10; cache_size := 3 |}
             Sample.page_wo); [vm_compute; reflexivity | vm_compute; reflexivity |].
    cbn [total]. lia.
Defined.

(** X3. The case of the query does not matter: the scan answers the lowered
    query exactly as it answers the query. *)
Theorem search_ignores_query_case
        (message_cache : list record) (query : string) (skip limit : Z) :
  search_messages message_cache (lower query) skip limit =
  search_messages message_cache query skip limit.
Proof. unfold search_messages. by rewrite lower_idempotent. Qed.

(** X4. The case of a stored value does not matter either: a record matches
    with a field set to a text exactly when it matches with that field set
    to the lowered text. *)
Theorem match_ignores_field_case
        (ql : string) (msg : record) (field s : string) :
  msg_matches ql (<[field := JStr (lower s)]> msg) =
  msg_matches ql (<[field := JStr s]> msg).
Proof.
  assert (forall f, field_matches ql (<[field := JStr (lower s)]> msg) f =
                    field_matches ql (<[field := JStr s]> msg) f) as Hf.
  { intros f. unfold field_matches, get_lower.
    destruct (decide (field = f)) as [->|Hne].
    - by rewrite !lookup_insert_eq, lower_idempotent.
    - by rewrite !lookup_insert_ne. }
  unfold msg_matches. by rewrite !Hf.
Qed.

(** X5. One record whose [message] is there and is not a string makes the
    scan raise [AttributeError], whatever the query and the window. *)
Theorem scan_raises_on_non_string_message
        (message_cache : list record) (msg : record) (v : jvalue)
        (query : string) (skip limit : Z) :
  msg ∈ message_cache ->
  msg !! "message" = Some v ->
  (forall s, v <> JStr s) ->
  search_messages message_cache query skip limit = Err AttributeError.
Proof.
  intros Hin Hv Hns. unfold search_messages.
  assert (msg_matches (lower query) msg = Err AttributeError) as Hmsg.
  { unfold msg_matches, field_matches, get_lower. rewrite Hv.
    destruct v; [by destruct (Hns s) | done | done | done]. }
  assert (matched (lower query) message_cache = Err AttributeError) as ->; [|done].
  induction message_cache as [|x rest IH]; [by apply elem_of_nil in Hin|].
  cbn [matched]. apply elem_of_cons in Hin as [<-|Hin].
  - by rewrite Hmsg.
  - destruct (msg_matches (lower query) x) as [b|e] eqn:Hx; unfold bind at 1.
    + by rewrite (IH Hin).
    + by rewrite (msg_matches_error _ _ _ Hx).
Qed.

Lemma scan_raises_on_non_string_message_witness :
  search_messages [Sample.msg_hello; <["message" := JNull]> Sample.msg_lunch]
                  "hello" 0 10 = Err AttributeError.
Proof.
  apply (scan_raises_on_non_string_message _
           (<["message" := JNull]> Sample.msg_lunch) JNull).
  - apply elem_of_cons. right. apply elem_of_cons. by left.
  - vm_compute. reflexivity.
  - discriminate.
Defined.

(** X6. The scan itself does not refuse the empty query: when every
    [message] is a string or absent, it matches every record, so the page is
    a window on the whole snapshot. *)
Theorem empty_query_matches_everything
        (message_cache : list record) (skip limit : Z) :
  Forall (fun msg => is_Some (field_text msg "message")) message_cache ->
  search_messages message_cache "" skip limit =
  Ok {| total := Z.of_nat (length message_cache);
        items := py_slice message_cache skip (skip + limit);
        skip := skip;
        limit := limit;
        cache_size := Z.of_nat (length message_cache) |}.
Proof.
  intros Hall. unfold search_messages.
  assert (matched (lower "") message_cache = Ok message_cache) as ->; [|done].
  change (lower "") with "".
  induction Hall as [|msg rest [s Hs] _ IH]; [done|].
  cbn [matched]. rewrite IH.
  assert (msg_matches "" msg = Ok true) as ->; [|done].
  unfold msg_matches, field_matches, get_lower. unfold field_text in Hs.
  destruct (msg !! "message") as [[| | |]|]; try discriminate;
    unfold bind; by rewrite contains_empty.
Qed.

Lemma empty_query_matches_everything_witness :
  search_messages Sample.snapshot "" 1 1 =
  Ok {| total := Z.of_nat (length Sample.snapshot);
        items := py_slice Sample.snapshot 1 (1 + 1);
        skip := 1;
        limit := 1;
        cache_size := Z.of_nat (length Sample.snapshot) |}.
Proof.
  apply (empty_query_matches_everything Sample.snapshot 1 1).
  repeat constructor; vm_compute; eauto.
Defined.

(** X7. The matches of a snapshot made of two parts are the matches of the
    first part followed by those of the second, so the totals add up. *)
Theorem search_total_adds_up
        (c1 c2 : list record) (query : string) (skip limit : Z)
        (r1 r2 : search_result) :
  search_messages c1 query skip limit = Ok r1 ->
  search_messages c2 query skip limit = Ok r2 ->
  exists r, search_messages (c1 ++ c2) query skip limit = Ok r /\
            total r = total r1 + total r2 /\
            cache_size r = cache_size r1 + cache_size r2.
Proof.
  unfold search_messages.
  destruct (matched (lower query) c1) as [m1|] eqn:H1; [|done].
  destruct (matched (lower query) c2) as [m2|] eqn:H2; [|done].
  unfold bind at 1 2. intros [= <-] [= <-].
  rewrite (matched_app _ _ _ _ _ H1 H2). unfold bind.
  eexists. split; [reflexivity|]. cbn [total cache_size].
  rewrite !length_app. lia.
Qed.

Lemma search_total_adds_up_witness :
  exists r, search_messages (Sample.snapshot ++ Sample.snapshot) "WO" 0 10 = Ok r /\
            total r = total Sample.page_wo + total Sample.page_wo /\
            cache_size r = cache_size Sample.page_wo + cache_size Sample.page_wo.
Proof.
  apply (search_total_adds_up Sample.snapshot Sample.snapshot "WO" 0 10);
    vm_compute; reflexivity.
Defined.

End MoreSearch.

(** ** The search endpoint *)

Section MoreEndpoints.
Import PyStr Search Endpoints.

(** X8. White space around [q] does not matter: the endpoint answers the
    trimmed query exactly as it answers the query, errors included. *)
Theorem search_ignores_outer_space (c : cache) (q : string) (skip limit : Z) :
  search c (strip q) skip limit = search c q skip limit.
Proof.
  unfold search. rewrite strip_idempotent.
  assert (String.eqb (strip q) "" || String.eqb (strip q) "" =
          String.eqb q "" || String.eqb (strip q) "") as ->; [|done].
  apply eq_true_iff_eq. rewrite orb_diag, String.eqb_eq, query_blank_test. done.
Qed.

(** X9. A page is served only when every guard has passed: the cache is
    loaded, the trimmed query is not empty, [skip] and [limit] are in range;
    then it holds at most [limit], so at most 1000, records, and echoes
    [skip] and [limit]. *)
Theorem search_served_only_past_guards
        (c : cache) (q : string) (skip limit : Z) (r : search_result) :
  search c q skip limit = Ok r ->
  cache_loaded c = true /\ strip q <> "" /\ 0 <= skip /\ 1 <= limit <= 1000 /\
  Z.of_nat (length (items r)) <= limit /\
  Search.skip r = skip /\ Search.limit r = limit /\
  cache_size r = Z.of_nat (length (message_cache c)).
Proof.
  unfold search.
  destruct (Z.leb_spec 0 skip); [|done].
  destruct (Z.leb_spec 1 limit); [|done].
  destruct (Z.leb_spec limit 1000); [|done]. cbn [negb andb].
  destruct (cache_loaded c); [|done]. cbn [negb].
  destruct (String.eqb q "" || String.eqb (strip q) "") eqn:Hblank; [done|].
  intros Hs. apply orb_false_elim in Hblank as [_ Hne].
  apply String.eqb_neq in Hne.
  unfold search_messages in Hs.
  destruct (matched (lower (strip q)) (message_cache c)) as [m|]; [|done].
  unfold bind in Hs. injection Hs as <-.
  cbn [Search.skip Search.limit items cache_size].
  destruct (py_slice_length m skip limit) as [Hlen _]; [lia|].
  repeat split; done || lia.
Qed.

Lemma search_served_only_past_guards_witness :
  cache_loaded Sample.loaded = true /\ strip " Wo " <> "" /\ 0 <= 0 /\
  1 <= 10 <= 1000 /\
  Z.of_nat (length (items Sample.page_wo)) <= 10 /\
  Search.skip Sample.page_wo = 0 /\ Search.limit Sample.page_wo = 10 /\
  cache_size Sample.page_wo = Z.of_nat (length (message_cache Sample.loaded)).
Proof.
  apply (search_served_only_past_guards Sample.loaded " Wo " 0 10 Sample.page_wo).
  vm_compute. reflexivity.
Defined.

End MoreEndpoints.

(** ** The loader *)

Section MoreLoader.
Import PyStr Search Endpoints Loader Status.

(** A page that lets the loader go on, met at any point of the budget. *)
Lemma retry_loop_page (gas : nat) (retry_count : Z) (s : session) (g : cache)
      (items : list record) (total : Z) (rest : list response)
      (tr : list (event * cache)) :
  retry_count < max_retries ->
  items <> [] ->
  Z.of_nat (length (all_messages s ++ items)) < total ->
  retry_loop (S (S gas)) retry_count false s
    {| globals := g; upstream := ok_page (items, total) :: rest; trace := tr |} =
  Finished (PageExit true
    {| skip := Loader.skip s + Loader.limit; all_messages := all_messages s ++ items |}
    {| globals := g; upstream := rest;
       trace := tr ++ [(EvGet (Loader.skip s) Loader.limit, g); (EvSleep 1, g)] |}).
Proof.
  intros Hrc Hne Hlt. cbn [retry_loop].
  destruct (Z.ltb_spec retry_count max_retries); [|lia]. cbn [andb negb].
  unfold client_get, ok_page.
  cbn [suspend upstream globals trace fst snd from_option id].
  destruct items as [|x xs]; [done|].
  destruct (Z.geb_spec (Z.of_nat (length (all_messages s ++ x :: xs))) total);
    [lia|].
  cbn [andb negb]. unfold sleep, suspend. cbn [globals upstream trace].
  by rewrite <- app_assoc.
Qed.

(** Failures that leave some of the budget: the pass goes on at the same
    cursor, one request later per failure. *)
Lemma retry_loop_failures (fails : list response) (gas : nat) (retry_count : Z)
      (s : session) (g : cache) (rest : list response)
      (tr : list (event * cache)) :
  retry_count + Z.of_nat (length fails) <= max_retries ->
  forallb is_retryable fails = true ->
  exists tr',
    retry_loop (length fails + gas) retry_count false s
      {| globals := g; upstream := fails ++ rest; trace := tr |} =
    retry_loop gas (retry_count + Z.of_nat (length fails)) false s
      {| globals := g; upstream := rest; trace := tr ++ tr' |} /\
    gets tr' = replicate (length fails) (Loader.skip s, Loader.limit) /\
    Forall (fun o => o.2 = g) tr'.
Proof.
  revert retry_count tr.
  induction fails as [|r fails IH]; intros retry_count tr Hlen Hall.
  - exists []. cbn [length app Nat.add replicate gets].
    rewrite app_nil_r, Z.add_0_r. done.
  - cbn [forallb] in Hall. apply andb_prop in Hall as [Hr Hall].
    cbn [length] in Hlen.
    assert (forall tr1, exists tr',
      retry_loop (length fails + gas) (retry_count + 1) false s
        {| globals := g; upstream := fails ++ rest; trace := tr1 |} =
      retry_loop gas (retry_count + Z.of_nat (S (length fails))) false s
        {| globals := g; upstream := rest; trace := tr1 ++ tr' |} /\
      gets tr' = replicate (length fails) (Loader.skip s, Loader.limit) /\
      Forall (fun o => o.2 = g) tr') as Hnext.
    { intros tr1. destruct (IH (retry_count + 1) tr1) as (tr' & Hrun & Hrest);
        [lia | done |].
      exists tr'. split; [|done]. rewrite Hrun. f_equal. lia. }
    cbn [length app Nat.add retry_loop].
    destruct (Z.ltb_spec retry_count max_retries); [|lia]. cbn [andb negb].
    unfold client_get. cbn [suspend upstream globals trace].
    destruct r as [items total|code|]; [done| |].
    + cbn [is_retryable] in Hr. rewrite Hr.
      unfold sleep, suspend. cbn [globals upstream trace].
      destruct (Hnext ((tr ++ [(EvGet (Loader.skip s) Loader.limit, g)]) ++
                       [(EvSleep (5 * 2 ^ (retry_count + 1)), g)]))
        as (tr' & Hrun & Hgets & Hg).
      exists ([(EvGet (Loader.skip s) Loader.limit, g);
               (EvSleep (5 * 2 ^ (retry_count + 1)), g)] ++ tr').
      split; [|split].
      * rewrite Hrun. by rewrite <- !app_assoc.
      * cbn [app gets replicate]. by rewrite Hgets.
      * by repeat constructor.
    + destruct (retry_count + 1 <? max_retries).
      * unfold sleep, suspend. cbn [globals upstream trace].
        destruct (Hnext ((tr ++ [(EvGet (Loader.skip s) Loader.limit, g)]) ++
                         [(EvSleep 5, g)])) as (tr' & Hrun & Hgets & Hg).
        exists ([(EvGet (Loader.skip s) Loader.limit, g); (EvSleep 5, g)] ++ tr').
        split; [|split].
        -- rewrite Hrun. by rewrite <- !app_assoc.
        -- cbn [app gets replicate]. by rewrite Hgets.
        -- by repeat constructor.
      * destruct (Hnext (tr ++ [(EvGet (Loader.skip s) Loader.limit, g)]))
          as (tr' & Hrun & Hgets & Hg).
        exists ([(EvGet (Loader.skip s) Loader.limit, g)] ++ tr').
        split; [|split].
        -- rewrite Hrun. by rewrite <- !app_assoc.
        -- cbn [app gets replicate]. by rewrite Hgets.
        -- by repeat constructor.
Qed.

(** One exception: the count goes up by one, and the loader waits 5 seconds
    unless that was the last attempt. *)
Lemma retry_loop_exception (gas : nat) (retry_count : Z) (s : session) (g : cache)
      (rest : list response) (tr : list (event * cache)) :
  retry_count < max_retries ->
  retry_loop (S gas) retry_count false s
    {| globals := g; upstream := RespException :: rest; trace := tr |} =
  retry_loop gas (retry_count + 1) false s
    {| globals := g; upstream := rest;
       trace := (tr ++ [(EvGet (Loader.skip s) Loader.limit, g)]) ++
                (if retry_count + 1 <? max_retries then [(EvSleep 5, g)] else []) |}.
Proof.
  intros Hrc. cbn [retry_loop].
  destruct (Z.ltb_spec retry_count max_retries); [|lia]. cbn [andb negb].
  unfold client_get. cbn [suspend upstream globals trace].
  destruct (retry_count + 1 <? max_retries).
  - reflexivity.
  - by rewrite app_nil_r.
Qed.

(** X10. An error status (400 to 599, on which [raise_for_status] raises)
    outside the retry list, a 500 say, ends the run at once: one request, no
    wait, no second try; the records accumulated so far are published and
    the flag is set. *)
Theorem fatal_status_aborts_run
        (gas : nat) (s : session) (g : cache) (status_code : Z)
        (rest : list response) (tr : list (event * cache)) :
  400 <= status_code <= 599 ->
  status_code ∉ retry_statuses ->
  load_loop (S gas) s
    {| globals := g; upstream := RespStatus status_code :: rest; trace := tr |} =
  Finished
    {| globals := {| message_cache := all_messages s; cache_loaded := true |};
       upstream := rest;
       trace := tr ++ [(EvGet (Loader.skip s) Loader.limit, g)] |}.
Proof.
  intros _ Hcode. cbn [load_loop]. unfold page_gas.
  change (Z.to_nat max_retries) with 5%nat. cbn [retry_loop].
  change (0 <? max_retries) with true. cbn [andb negb].
  unfold client_get. cbn [suspend upstream globals trace].
  destruct (existsb (Z.eqb status_code) retry_statuses) eqn:Hex.
  - by apply retry_statuses_elem in Hex.
  - reflexivity.
Qed.

Lemma fatal_status_aborts_run_witness :
  load_loop 1 {| skip := 100; all_messages := [Sample.msg_hello] |}
    {| globals := Sample.unloaded; upstream := [RespStatus 500]; trace := [] |} =
  Finished
    {| globals := {| message_cache := [Sample.msg_hello]; cache_loaded := true |};
       upstream := [];
       trace := [] ++ [(EvGet 100 Loader.limit, Sample.unloaded)] |}.
Proof.
  apply (fatal_status_aborts_run 0 {| skip := 100; all_messages := [Sample.msg_hello] |}
           Sample.unloaded 500 [] []).
  - lia.
  - rewrite <- retry_statuses_elem. discriminate.
Defined.

(** X11. Five exceptions in a row on one page end the run: five requests
    at the same cursor, a wait of 5 seconds after each of the first four and
    none after the last; the records accumulated so far are published. *)
Theorem five_exceptions_abort_run
        (gas : nat) (s : session) (g : cache)
        (rest : list response) (tr : list (event * cache)) :
  load_loop (S gas) s
    {| globals := g; upstream := replicate 5 RespException ++ rest; trace := tr |} =
  Finished
    {| globals := {| message_cache := all_messages s; cache_loaded := true |};
       upstream := rest;
       trace := tr ++ [(EvGet (Loader.skip s) Loader.limit, g); (EvSleep 5, g);
                       (EvGet (Loader.skip s) Loader.limit, g); (EvSleep 5, g);
                       (EvGet (Loader.skip s) Loader.limit, g); (EvSleep 5, g);
                       (EvGet (Loader.skip s) Loader.limit, g); (EvSleep 5, g);
                       (EvGet (Loader.skip s) Loader.limit, g)] |}.
Proof.
  cbn [load_loop]. unfold page_gas. change (Z.to_nat max_retries) with 5%nat.
  cbn [replicate app].
  rewrite !retry_loop_exception by (vm_compute; reflexivity).
  cbn [retry_loop]. change (0 + 1 + 1 + 1 + 1 + 1 <? max_retries) with false.
  change (0 + 1 <? max_retries) with true.
  change (0 + 1 + 1 <? max_retries) with true.
  change (0 + 1 + 1 + 1 <? max_retries) with true.
  change (0 + 1 + 1 + 1 + 1 <? max_retries) with true.
  cbn [andb negb]. unfold publish_partial, set_cache_loaded, set_message_cache.
  cbn [globals upstream trace message_cache cache_loaded].
  by rewrite <- !app_assoc.
Qed.

(** X12. A page without items, or without the [items] key, ends the run:
    the records accumulated so far are published, the flag is set, and the
    loader does not wait. *)
Theorem empty_page_ends_run
        (gas : nat) (s : session) (g : cache)
        (items : option (list record)) (total : option Z)
        (rest : list response) (tr : list (event * cache)) :
  default [] items = [] ->
  load_loop (S gas) s
    {| globals := g; upstream := RespPage items total :: rest; trace := tr |} =
  Finished
    {| globals := {| message_cache := all_messages s; cache_loaded := true |};
       upstream := rest;
       trace := tr ++ [(EvGet (Loader.skip s) Loader.limit, g)] |}.
Proof.
  intros Hitems. cbn [load_loop]. unfold page_gas.
  change (Z.to_nat max_retries) with 5%nat. cbn [retry_loop].
  change (0 <? max_retries) with true. cbn [andb negb].
  unfold client_get. cbn [suspend upstream globals trace].
  by rewrite Hitems.
Qed.

Lemma empty_page_ends_run_witness :
  load_loop 1 {| skip := 100; all_messages := [Sample.msg_hello] |}
    {| globals := Sample.unloaded; upstream := [RespPage None (Some 7)]; trace := [] |} =
  Finished
    {| globals := {| message_cache := [Sample.msg_hello]; cache_loaded := true |};
       upstream := [];
       trace := [] ++ [(EvGet 100 Loader.limit, Sample.unloaded)] |}.
Proof.
  apply (empty_page_ends_run 0 {| skip := 100; all_messages := [Sample.msg_hello] |}
           Sample.unloaded None (Some 7) [] []).
  reflexivity.
Defined.

(** X18. A page with which the count accumulated reaches the [total] it
    reports (a missing [total] counting as 0) is the last one: the loader
    appends its records, waits its one second, publishes the whole list with
    the flag set and asks nothing more, whatever the upstream still holds. *)
Theorem reached_total_ends_run
        (gas : nat) (s : session) (g : cache)
        (items : list record) (total : option Z)
        (rest : list response) (tr : list (event * cache)) :
  items <> [] ->
  default 0 total <= Z.of_nat (length (all_messages s ++ items)) ->
  load_loop (S gas) s
    {| globals := g; upstream := RespPage (Some items) total :: rest; trace := tr |} =
  Finished
    {| globals := {| message_cache := all_messages s ++ items; cache_loaded := true |};
       upstream := rest;
       trace := tr ++ [(EvGet (Loader.skip s) Loader.limit, g); (EvSleep 1, g)] |}.
Proof.
  intros Hne Htotal. cbn [load_loop]. unfold page_gas.
  change (Z.to_nat max_retries) with 5%nat. cbn [retry_loop].
  change (0 <? max_retries) with true. cbn [andb negb].
  unfold client_get. cbn [suspend upstream globals trace from_option id].
  destruct items as [|x xs]; [done|].
  destruct (Z.geb_spec (Z.of_nat (length (all_messages s ++ x :: xs)))
                       (default 0 total)); [|lia].
  unfold publish, sleep, suspend, set_message_cache, set_cache_loaded.
  cbn [globals upstream trace cache_loaded message_cache].
  by rewrite <- app_assoc.
Qed.

Lemma reached_total_ends_run_witness :
  load_loop 1 {| Loader.skip := 100; all_messages := [Sample.msg_hello] |}
    {| globals := Sample.unloaded;
       upstream := RespPage (Some [Sample.msg_lunch]) (Some 1) :: Sample.refresh_script;
       trace := [] |} =
  Finished
    {| globals := {| message_cache := [Sample.msg_hello] ++ [Sample.msg_lunch];
                     cache_loaded := true |};
       upstream := Sample.refresh_script;
       trace := [] ++ [(EvGet 100 Loader.limit, Sample.unloaded);
                       (EvSleep 1, Sample.unloaded)] |}.
Proof.
  apply (reached_total_ends_run 0
           {| Loader.skip := 100; all_messages := [Sample.msg_hello] |}
           Sample.unloaded [Sample.msg_lunch] (Some 1) Sample.refresh_script []).
  - discriminate.
  - vm_compute. discriminate.
Defined.

(** Up to four failures, then a page that lets the loader go on: one turn
    of the outer loop. *)
Lemma load_loop_block
      (fails : list response) (gas : nat) (s : session) (g : cache)
      (items : list record) (total : Z) (rest : list response)
      (tr : list (event * cache)) :
  (length fails <= 4)%nat ->
  forallb is_retryable fails = true ->
  items <> [] ->
  Z.of_nat (length (all_messages s ++ items)) < total ->
  exists tr',
    load_loop (S gas) s
      {| globals := g; upstream := fails ++ ok_page (items, total) :: rest;
         trace := tr |} =
    load_loop gas
      {| skip := Loader.skip s + Loader.limit;
         all_messages := all_messages s ++ items |}
      {| globals := g; upstream := rest; trace := tr ++ tr' |} /\
    gets tr' = replicate (S (length fails)) (Loader.skip s, Loader.limit) /\
    Forall (fun o => o.2 = g) tr'.
Proof.
  intros Hlen Hfails Hne Hlt.
  destruct (retry_loop_failures fails (S (S (4 - length fails))) 0 s g
              (ok_page (items, total) :: rest) tr)
    as (tr1 & Hrun & Hgets & Hg); [unfold max_retries; lia | done |].
  exists (tr1 ++ [(EvGet (Loader.skip s) Loader.limit, g); (EvSleep 1, g)]).
  split; [|split].
  - cbn [load_loop]. unfold page_gas. change (Z.to_nat max_retries) with 5%nat.
    replace 6%nat with (length fails + S (S (4 - length fails)))%nat by lia.
    rewrite Hrun, retry_loop_page; [|unfold max_retries; lia|done|done].
    cbn [negb]. by rewrite app_assoc.
  - rewrite gets_app, Hgets. cbn [gets].
    change (S (length fails)) with (1 + length fails)%nat.
    rewrite Nat.add_comm, replicate_add. done.
  - apply Forall_app. split; [done | by repeat constructor].
Qed.

(** X13. Failures that use up an attempt do not lose a page, and the budget
    is per page: on a script where every page comes after at most four such
    failures and lets the loader go on, closed by an empty page, the run
    ends with the records of every page, each appended once and in order;
    each page has been asked for once more than it failed, at its own
    cursor, 100 beyond the one before, and the empty page once. *)
Theorem pages_survive_failures
        (blocks : list (list response * (list record * Z)))
        (gas : nat) (s : session) (g : cache)
        (items : option (list record)) (total : option Z)
        (rest : list response) (tr : list (event * cache)) :
  Forall (fun b => (length b.1 <= 4)%nat /\ forallb is_retryable b.1 = true) blocks ->
  continuing (all_messages s) (map snd blocks) = true ->
  default [] items = [] ->
  exists tr',
    load_loop (length blocks + S gas) s
      {| globals := g;
         upstream := blocks_script blocks ++ RespPage items total :: rest;
         trace := tr |} =
    Finished
      {| globals := {| message_cache :=
                         all_messages s ++ concat (map (fun b => b.2.1) blocks);
                       cache_loaded := true |};
         upstream := rest;
         trace := tr ++ tr' |} /\
    gets tr' =
      request_blocks (Loader.skip s)
                     (map (fun b => S (length b.1)) blocks ++ [1%nat]) /\
    Forall (fun o => o.2 = g) tr'.
Proof.
  revert s tr.
  induction blocks as [|[fails [its tot]] blocks IH]; intros s tr Hall Hcont Hitems.
  - exists [(EvGet (Loader.skip s) Loader.limit, g)].
    cbn [length Nat.add blocks_script map concat app request_blocks replicate gets].
    rewrite app_nil_r. split; [|split; [done | by repeat constructor]].
    cbn [load_loop]. unfold page_gas. change (Z.to_nat max_retries) with 5%nat.
    cbn [retry_loop]. change (0 <? max_retries) with true. cbn [andb negb].
    unfold client_get. cbn [suspend upstream globals trace]. by rewrite Hitems.
  - apply Forall_cons in Hall as [[Hlen Hfails] Hall].
    cbn [map snd continuing] in Hcont. apply andb_prop in Hcont as [Hc Hcont].
    apply andb_prop in Hc as [Hne Hlt].
    apply negb_true_iff, bool_decide_eq_false in Hne. apply Z.ltb_lt in Hlt.
    destruct (load_loop_block fails (length blocks + S gas) s g its tot
                (blocks_script blocks ++ RespPage items total :: rest) tr)
      as (tr1 & Hrun1 & Hgets1 & Hg1); [done..|].
    destruct (IH {| skip := Loader.skip s + Loader.limit;
                    all_messages := all_messages s ++ its |} (tr ++ tr1))
      as (tr2 & Hrun2 & Hgets2 & Hg2); [done..|].
    exists (tr1 ++ tr2). split; [|split].
    + cbn [length Nat.add]. unfold blocks_script in *.
      cbn [map concat fst snd]. rewrite <- !app_assoc. cbn [app].
      rewrite Hrun1, Hrun2. cbn [all_messages map concat snd fst].
      by rewrite <- !app_assoc.
    + rewrite gets_app, Hgets1, Hgets2. cbn [map app request_blocks fst]. done.
    + by apply Forall_app.
Qed.

Lemma pages_survive_failures_witness :
  exists tr',
    load_loop (2 + 1) {| skip := 0; all_messages := [] |}
      {| globals := Sample.unloaded;
         upstream :=
           blocks_script
             [([RespStatus 429; RespException], ([Sample.msg_hello], 3));
              (replicate 4 RespException, ([Sample.msg_lunch], 3))] ++
           RespPage (Some []) (Some 3) :: Sample.refresh_script;
         trace := [] |} =
    Finished
      {| globals := {| message_cache := [] ++ [Sample.msg_hello; Sample.msg_lunch];
                       cache_loaded := true |};
         upstream := Sample.refresh_script;
         trace := [] ++ tr' |} /\
    gets tr' = request_blocks 0 [3; 5; 1]%nat /\
    Forall (fun o => o.2 = Sample.unloaded) tr'.
Proof.
  apply (pages_survive_failures
           [([RespStatus 429; RespException], ([Sample.msg_hello], 3));
            (replicate 4 RespException, ([Sample.msg_lunch], 3))]
           0 {| skip := 0; all_messages := [] |} Sample.unloaded
           (Some []) (Some 3) Sample.refresh_script []).
  - repeat constructor; simpl; lia.
  - reflexivity.
  - reflexivity.
Defined.

(** *** The requests of a run *)

Ltac asked_done :=
  repeat split; intros; first [done | lia | congruence].

Lemma pass_requests_after_failure (retry_count : Z) (s : session) (w w2 : world)
      (o : outcome page_exit) :
  retry_count < max_retries ->
  gets (trace w2) = gets (trace w) ++ [(Loader.skip s, Loader.limit)] ->
  pass_requests (retry_count + 1) false s w2 o ->
  pass_requests retry_count false s w o.
Proof.
  intros Hrc Hw2. unfold pass_requests.
  destruct o as [[w'|success' s' w']|w'|]; [| | |done].
  - intros (k & Hg & Hk & _ & _). exists (S k). rewrite Hg, Hw2, <- app_assoc.
    asked_done.
  - intros (k & (Hg & Hk & _ & _) & _ & Hs). exists (S k).
    rewrite Hg, Hw2, <- app_assoc. asked_done.
  - intros (k & Hg & Hk & _ & _). exists (S k). rewrite Hg, Hw2, <- app_assoc.
    asked_done.
Qed.

Lemma pass_requests_after_success (retry_count : Z) (s s2 : session) (w w2 : world)
      (o : outcome page_exit) :
  retry_count < max_retries ->
  gets (trace w2) = gets (trace w) ++ [(Loader.skip s, Loader.limit)] ->
  Loader.skip s2 = Loader.skip s + Loader.limit ->
  pass_requests retry_count true s2 w2 o ->
  pass_requests retry_count false s w o.
Proof.
  intros Hrc Hw2 Hs2. unfold pass_requests.
  destruct o as [[w'|success' s' w']|w'|]; [| | |done].
  - intros (k & Hg & _ & Hk & _). rewrite (Hk eq_refl) in Hg. exists 1%nat.
    rewrite Hg, Hw2. cbn [replicate]. rewrite app_nil_r.
    asked_done.
  - intros (k & (Hg & _ & Hk & _) & Hsucc & Hs). rewrite (Hk eq_refl) in Hg.
    rewrite (Hsucc eq_refl) in *. cbn [andb negb] in *. exists 1%nat.
    rewrite Hg, Hw2. cbn [replicate]. rewrite app_nil_r.
    asked_done.
  - intros (k & Hg & _ & Hk & _). rewrite (Hk eq_refl) in Hg. exists 1%nat.
    rewrite Hg, Hw2. cbn [replicate]. rewrite app_nil_r.
    asked_done.
Qed.

Lemma retry_loop_requests (gas : nat) (retry_count : Z) (success : bool)
      (s : session) (w : world) :
  pass_requests retry_count success s w (retry_loop gas retry_count success s w).
Proof.
  revert retry_count success s w.
  induction gas as [|gas IH]; intros retry_count success s w; [done|].
  cbn [retry_loop].
  destruct (Z.ltb_spec retry_count max_retries) as [Hrc|Hrc];
    destruct success; cbn [andb negb];
    try (exists 0%nat; cbn [replicate]; rewrite app_nil_r; asked_done).
  assert (gets (trace w ++ [(EvGet (Loader.skip s) Loader.limit, globals w)]) =
          gets (trace w) ++ [(Loader.skip s, Loader.limit)]) as Hget0.
  { by rewrite gets_app. }
  assert (forall t g,
            gets ((trace w ++ [(EvGet (Loader.skip s) Loader.limit, globals w)])
                  ++ [(EvSleep t, g)]) =
            gets (trace w) ++ [(Loader.skip s, Loader.limit)]) as Hget1.
  { intros t g. by rewrite !gets_app, app_nil_r. }
  unfold client_get. cbn [suspend upstream globals trace].
  destruct (upstream w) as [|r rest].
  { exists 1%nat. cbn [suspend trace replicate]. rewrite Hget0.
    asked_done. }
  destruct r as [items total|code|].
  - destruct (default [] items) as [|x xs].
    + exists 1%nat. cbn [publish set_message_cache set_cache_loaded trace replicate].
      rewrite Hget0. asked_done.
    + destruct (_ >=? _).
      * exists 1%nat.
        cbn [publish set_message_cache set_cache_loaded sleep suspend trace replicate].
        rewrite Hget1. asked_done.
      * eapply pass_requests_after_success; [done | | | apply IH].
        -- cbn [sleep suspend trace]. by rewrite Hget1.
        -- done.
  - destruct (existsb _ _).
    + eapply pass_requests_after_failure; [done | | apply IH].
      cbn [sleep suspend trace]. by rewrite Hget1.
    + exists 1%nat. cbn [trace replicate]. rewrite Hget0.
      asked_done.
  - eapply pass_requests_after_failure; [done | | apply IH].
    destruct (_ <? _); cbn [sleep suspend trace].
    + by rewrite Hget1.
    + by rewrite Hget0.
Qed.

Lemma load_loop_requests (gas : nat) (s : session) (w : world) :
  match final_world (load_loop gas s w) with
  | Some w' =>
      exists ks, gets (trace w') = gets (trace w) ++ request_blocks (Loader.skip s) ks /\
                 Forall (fun k => 1 <= k <= 5)%nat ks /\ ks <> []
  | None => True
  end.
Proof.
  revert s w. induction gas as [|gas IH]; intros s w; [done|].
  cbn [load_loop]. pose proof (retry_loop_requests page_gas 0 false s w) as Hp.
  unfold pass_requests in Hp.
  assert (forall k, Z.of_nat k <= Z.max 0 (max_retries - 0) ->
                    (false = false -> 0 < max_retries -> (1 <= k)%nat) ->
                    (1 <= k <= 5)%nat) as Hk5.
  { intros k Hk H1. specialize (H1 eq_refl). unfold max_retries in *. lia. }
  assert (forall k w', gets (trace w') =
                       gets (trace w) ++ replicate k (Loader.skip s, Loader.limit) ->
                       (1 <= k <= 5)%nat ->
            exists ks, gets (trace w') =
                       gets (trace w) ++ request_blocks (Loader.skip s) ks /\
                       Forall (fun k => 1 <= k <= 5)%nat ks /\ ks <> []) as Hone.
  { intros k w' Hg Hk. exists [k]. cbn [request_blocks]. rewrite app_nil_r.
    split; [done|]. split; [by constructor | done]. }
  destruct (retry_loop page_gas 0 false s w)
    as [[w'|success' s' w']|w'|]; cbn [final_world]; [| | |done].
  - destruct Hp as (k & Hg & Hk & _ & H1). eapply Hone; [done | by apply Hk5].
  - destruct Hp as (k & (Hg & Hk & _ & H1) & _ & Hs).
    pose proof (Hk5 k Hk H1) as Hk'.
    destruct success'; cbn [negb andb] in *.
    + assert (forall w'', (exists ks,
                 gets (trace w'') =
                 gets (trace w') ++ request_blocks (Loader.skip s') ks /\
                 Forall (fun k => 1 <= k <= 5)%nat ks /\ ks <> []) ->
               exists ks, gets (trace w'') =
                          gets (trace w) ++ request_blocks (Loader.skip s) ks /\
                          Forall (fun k => 1 <= k <= 5)%nat ks /\ ks <> []) as Hmore.
      { intros w'' (ks & Hg' & Hks & _). exists (k :: ks).
        cbn [request_blocks]. rewrite Hg', Hg, Hs, <- app_assoc.
        split; [done|]. split; [by constructor | done]. }
      specialize (IH s' w').
      destruct (load_loop gas s' w') as [w''|w''|]; cbn [final_world] in *;
        [by apply Hmore | by apply Hmore | done].
    + by eapply Hone.
  - destruct Hp as (k & Hg & Hk & _ & H1). eapply Hone; [done | by apply Hk5].
Qed.

(** X14. The requests of a load from a cache that is not loaded go page by
    page: the first is at cursor 0, every page is asked for at least once
    and at most five times, always with limit 100, and the cursor then moves
    on by exactly 100; it never goes back and never jumps. *)
Theorem requests_walk_the_pages (w w' : world) :
  cache_loaded (globals w) = false ->
  final_world (load_all_messages w) = Some w' ->
  exists ks, gets (trace w') = gets (trace w) ++ request_blocks 0 ks /\
             Forall (fun k => 1 <= k <= 5)%nat ks /\ ks <> [].
Proof.
  intros Hflag. unfold load_all_messages. rewrite Hflag.
  pose proof (load_loop_requests (S (length (upstream w)))
                {| skip := 0; all_messages := [] |} w) as Hr.
  intros Hfin. by rewrite Hfin in Hr.
Qed.

Lemma requests_walk_the_pages_witness :
  exists ks,
    gets [(EvGet 0 100, Sample.unloaded_of Sample.loaded);
          (EvSleep 10, Sample.unloaded_of Sample.loaded);
          (EvGet 0 100, Sample.unloaded_of Sample.loaded);
          (EvSleep 1, Sample.unloaded_of Sample.loaded);
          (EvGet 100 100, Sample.unloaded_of Sample.loaded);
          (EvSleep 1, Sample.unloaded_of Sample.loaded)] =
    gets [] ++ request_blocks 0 ks /\
    Forall (fun k => 1 <= k <= 5)%nat ks /\ ks <> [].
Proof.
  apply (requests_walk_the_pages
           {| globals := Sample.unloaded_of Sample.loaded;
              upstream := RespStatus 429 :: Sample.refresh_script;
              trace := [] |}
           {| globals := {| message_cache := [Sample.msg_lunch; Sample.msg_anon];
                            cache_loaded := true |};
              upstream := [];
              trace := [(EvGet 0 100, Sample.unloaded_of Sample.loaded);
                        (EvSleep 10, Sample.unloaded_of Sample.loaded);
                        (EvGet 0 100, Sample.unloaded_of Sample.loaded);
                        (EvSleep 1, Sample.unloaded_of Sample.loaded);
                        (EvGet 100 100, Sample.unloaded_of Sample.loaded);
                        (EvSleep 1, Sample.unloaded_of Sample.loaded)] |}).
  - reflexivity.
  - vm_compute. reflexivity.
Defined.

End MoreLoader.

(** ** The loader and the endpoints together *)

Section Service.
Import PyStr Search Endpoints Loader Status.

Lemma matched_error (ql : string) (message_cache : list record) (e : py_error) :
  matched ql message_cache = Err e -> e = AttributeError.
Proof.
  induction message_cache as [|msg rest IH]; [done|]. cbn [matched].
  destruct (msg_matches ql msg) as [b|e1] eqn:Hmsg; unfold bind at 1.
  - destruct (matched ql rest) as [tl|e2]; unfold bind; [done|].
    intros [= <-]. by apply IH.
  - intros [= <-]. by eapply msg_matches_error.
Qed.

Lemma search_loaded_not_503 (c : cache) (q : string) (skip limit : Z) :
  cache_loaded c = true -> search c q skip limit <> Err (HTTPException 503).
Proof.
  intros Hflag. unfold search. rewrite Hflag. cbn [negb].
  destruct (negb (0 <=? skip)); [done|].
  destruct (negb ((1 <=? limit) && (limit <=? 1000))); [done|].
  destruct (String.eqb q "" || String.eqb (strip q) ""); [done|].
  unfold search_messages.
  destruct (matched _ _) as [m|e] eqn:Hm; unfold bind; [done|].
  by rewrite (matched_error _ _ _ Hm).
Qed.

Lemma load_all_messages_loaded (w w' : world) :
  load_all_messages w = Finished w' -> cache_loaded (globals w') = true.
Proof.
  unfold load_all_messages. destruct (cache_loaded (globals w)) eqn:Hflag.
  - by intros [= <-].
  - pose proof (load_loop_inv (S (length (upstream w)))
                  {| Loader.skip := 0; Loader.all_messages := [] |} w) as Hinv.
    intros Hrun. rewrite Hrun in Hinv. destruct Hinv as (c & _ & Hg).
    by rewrite Hg.
Qed.

(** X15. However a load ends, with all pages, on an empty page or cut short
    by failures, it leaves the flag set: [/health] reports the cache loaded
    with the number of records held, no search is answered 503 any more, and
    a further load does nothing. *)
Theorem finished_load_opens_service (w w' : world) :
  load_all_messages w = Finished w' ->
  cache_loaded (globals w') = true /\
  reported_loaded (health (globals w')) = true /\
  cached_messages (health (globals w')) =
    Z.of_nat (length (message_cache (globals w'))) /\
  (forall q skip limit,
      search (globals w') q skip limit <> Err (HTTPException 503)) /\
  load_all_messages w' = Finished w'.
Proof.
  intros Hrun. apply load_all_messages_loaded in Hrun as Hflag.
  split; [done|]. split; [done|]. split; [done|]. split.
  - intros q skip limit. by apply search_loaded_not_503.
  - unfold load_all_messages. by rewrite Hflag.
Qed.

Lemma finished_load_opens_service_witness :
  let w' := {| globals := {| message_cache := []; cache_loaded := true |};
               upstream := [];
               trace := [(EvGet 0 100, Sample.unloaded)] |} in
  cache_loaded (globals w') = true /\
  reported_loaded (health (globals w')) = true /\
  cached_messages (health (globals w')) =
    Z.of_nat (length (message_cache (globals w'))) /\
  (forall q skip limit,
      search (globals w') q skip limit <> Err (HTTPException 503)) /\
  load_all_messages w' = Finished w'.
Proof.
  apply (finished_load_opens_service
           {| globals := Sample.unloaded; upstream := [RespStatus 500]; trace := [] |}).
  reflexivity.
Defined.

(** X16. While a refresh runs and no other load is in progress (the design
    takes one load at a time; a second one could set the flag meanwhile),
    at every point where another handler can run the flag is unset and the
    old snapshot is still in place: a search with parameters in range is
    answered 503 whatever its query, and [/health] reports the cache as not
    loaded with the old count. *)
Theorem refresh_closes_service (w : world) :
  let running (w' : world) :=
    exists new,
      trace w' = trace w ++ new /\
      Forall (fun o =>
                reported_loaded (health o.2) = false /\
                cached_messages (health o.2) =
                  Z.of_nat (length (message_cache (globals w))) /\
                forall q skip limit,
                  0 <= skip -> 1 <= limit <= 1000 ->
                  search o.2 q skip limit = Err (HTTPException 503)) new in
  match refresh_cache w with
  | Finished (w', _) => running w'
  | Unscripted w' => running w'
  | OutOfGas => False
  end.
Proof.
  intros running.
  assert (forall w', (exists c, steps (set_cache_loaded false w) w' c) -> running w')
    as Hrunning.
  { intros w' (c & _ & new & Htr & Hobs). exists new. split; [done|].
    eapply Forall_impl; [exact Hobs|]. intros o ->.
    cbn [set_cache_loaded globals health reported_loaded cached_messages
         cache_loaded message_cache].
    split; [done|]. split; [done|]. intros q skip limit Hskip [Hlo Hhi].
    unfold search. cbn [cache_loaded negb].
    destruct (Z.leb_spec 0 skip); [|lia].
    destruct (Z.leb_spec 1 limit); [|lia].
    destruct (Z.leb_spec limit 1000); [|lia]. done. }
  unfold refresh_cache.
  pose proof (load_all_messages_gas (set_cache_loaded false w)) as Hgas.
  unfold load_all_messages in *.
  cbn [set_cache_loaded globals cache_loaded upstream] in *.
  pose proof (load_loop_inv (S (length (upstream w)))
                {| Loader.skip := 0; Loader.all_messages := [] |}
                (set_cache_loaded false w)) as Hinv.
  destruct (load_loop _ _ _) as [w'|w'|]; [| |done].
  - destruct Hinv as (c & Hc & _). apply Hrunning. eauto.
  - destruct Hinv as (c & Hc & _). apply Hrunning. eauto.
Qed.

(** X17. When the first answer of the upstream at startup is an error status
    (400 to 599, on which [raise_for_status] raises) outside the retry list,
    the service comes up loaded with an empty cache: every search with
    parameters in range and a query that is not blank is served, with no
    hits. *)
Theorem startup_with_upstream_down
        (status_code : Z) (rest : list response) (q : string) (skip limit : Z) :
  400 <= status_code <= 599 ->
  status_code ∉ retry_statuses ->
  0 <= skip -> 1 <= limit <= 1000 -> strip q <> "" ->
  exists w',
    startup_event
      {| globals := initial; upstream := RespStatus status_code :: rest;
         trace := [] |} = Finished w' /\
    globals w' = {| message_cache := []; cache_loaded := true |} /\
    upstream w' = rest /\
    search (globals w') q skip limit =
    Ok {| Search.total := 0; Search.items := []; Search.skip := skip;
          Search.limit := limit; Search.cache_size := 0 |}.
Proof.
  intros _ Hcode Hskip [Hlo Hhi] Hq.
  assert (existsb (Z.eqb status_code) retry_statuses = false) as Hex.
  { apply not_true_is_false. by rewrite retry_statuses_elem. }
  eexists. split.
  - unfold startup_event, load_all_messages, initial.
    cbn [globals cache_loaded upstream length load_loop]. unfold page_gas.
    change (Z.to_nat max_retries) with 5%nat. cbn [retry_loop].
    change (0 <? max_retries) with true. cbn [andb negb].
    unfold client_get. cbn [suspend upstream globals trace]. rewrite Hex.
    cbn [negb]. reflexivity.
  - cbn [publish_partial set_cache_loaded set_message_cache globals upstream
         all_messages message_cache cache_loaded].
    split; [done|]. split; [done|]. unfold search. cbn [cache_loaded negb message_cache].
    destruct (Z.leb_spec 0 skip); [|lia].
    destruct (Z.leb_spec 1 limit); [|lia].
    destruct (Z.leb_spec limit 1000); [|lia]. cbn [negb andb].
    destruct (String.eqb q "" || String.eqb (strip q) "") eqn:Hblank.
    { by apply query_blank_test in Hblank. }
    unfold search_messages. cbn [matched]. unfold bind, py_slice.
    by rewrite drop_nil, take_nil.
Qed.

Lemma startup_with_upstream_down_witness :
  exists w',
    startup_event
      {| globals := initial; upstream := RespStatus 500 :: Sample.refresh_script;
         trace := [] |} = Finished w' /\
    globals w' = {| message_cache := []; cache_loaded := true |} /\
    upstream w' = Sample.refresh_script /\
    search (globals w') " lunch " 0 100 =
    Ok {| Search.total := 0; Search.items := []; Search.skip := 0;
          Search.limit := 100; Search.cache_size := 0 |}.
Proof.
  apply (startup_with_upstream_down 500 Sample.refresh_script " lunch " 0 100).
  - lia.
  - rewrite <- retry_statuses_elem. discriminate.
  - lia.
  - lia.
  - discriminate.
Defined.

End Service.
